(** * Author ordering, affiliation numbering and Zenodo submission

    A shallow embedding of [extract_author_info.py] (class
    [AuthorInfoExtraction]) and the properties of its author ordering,
    affiliation registry, output formatting and submission path.

    Conventions of the embedding:
    - a Python [str] is a [string] holding its UTF-8 bytes;
    - a Python exception is a constructor of [exn]; a function that may
      raise returns a [result];
    - a Python [dict] is a [gmap]; a [defaultdict(list)] is a [gmap] to
      lists read with the default [[]];
    - a DataFrame is the list of its rows in table order, each paired with
      its index label once the index is set;
    - the file system and the remote HTTP service are explicit arguments. *)

From Stdlib Require Import ZArith String Ascii List DecimalString DecimalPos.
From stdpp Require Import base list strings gmap.

(** ** Python runtime: exceptions and results *)

Inductive exn : Type :=
| AssertionError
| KeyError (key : string)
| IndexError
| TypeError
| JSONDecodeError (doc : string)
| RuntimeError (msg : string)
| RuntimeWarning (msg : string)
| FileNotFoundError (msg : string)
| IsADirectoryError (path : string)
| PermissionError (path : string)
| OSError (msg : string)
| UnicodeDecodeError
| UnicodeEncodeError.

Inductive result (A : Type) : Type :=
| Ok (a : A)
| Raise (e : exn).
Arguments Ok {A} a.
Arguments Raise {A} e.

#[global] Instance result_ret : MRet result := λ A a, Ok a.
#[global] Instance result_bind : MBind result :=
  λ A B f m, match m with Ok a => f a | Raise e => Raise e end.

(** [assert cond] *)
Definition py_assert (cond : bool) : result unit :=
  if cond then Ok tt else Raise AssertionError.

(** A [for] loop whose body may raise, threading the loop state. *)
Fixpoint for_each {S A : Type} (body : S → A → result S) (xs : list A) (s : S)
  : result S :=
  match xs with
  | [] => Ok s
  | x :: xs' => s' ← body s x; for_each body xs' s'
  end.

(** A list comprehension whose element expression may raise. *)
Fixpoint comprehension {A B : Type} (f : A → result B) (xs : list A)
  : result (list B) :=
  match xs with
  | [] => Ok []
  | x :: xs' => y ← f x; ys ← comprehension f xs'; Ok (y :: ys)
  end.

(** ** Strings *)

Definition tab : string := String (ascii_of_nat 9) "".
Definition newline : string := String (ascii_of_nat 10) "".

(** [str(n)] for a Python [int]. *)
Definition str_int (n : Z) : string := NilZero.string_of_int (Z.to_int n).

(** [sep.join(parts)] *)
Definition join (sep : string) (parts : list string) : string :=
  String.concat sep parts.

(** ** [_superscript] *)

Definition sup_map : list (ascii * string) :=
  [ ("0"%char, "⁰"); ("1"%char, "¹"); ("2"%char, "²"); ("3"%char, "³");
    ("4"%char, "⁴"); ("5"%char, "⁵"); ("6"%char, "⁶");
    ("7"%char, "⁷"); ("8"%char, "⁸"); ("9"%char, "⁹") ].

(** [d[c]] on a dict literal keyed by one-character strings. *)
Fixpoint char_dict_get (d : list (ascii * string)) (c : ascii) : result string :=
  match d with
  | [] => Raise (KeyError (String c ""))
  | (k, v) :: d' => if Ascii.eqb k c then Ok v else char_dict_get d' c
  end.

Definition _superscript (number_to_convert : Z) : result string :=
  let num := str_int number_to_convert in
  for_each (λ sup_num c, s ← char_dict_get sup_map c; Ok (sup_num +:+ s))
           (list_ascii_of_string num) "".

(** ** Spreadsheet cells and tables *)

(** A text cell as [read_excel] yields it: blank ([NaN]) or a string. *)
Inductive cell : Type :=
| NaN
| Str (s : string).

#[global] Instance cell_eq_dec : EqDecision cell.
Proof. solve_decision. Defined.

#[global] Instance cell_countable : Countable cell :=
  inj_countable' (λ c, match c with NaN => None | Str s => Some s end)
                 (λ o, match o with None => NaN | Some s => Str s end)
                 (λ c, match c with NaN => eq_refl | Str _ => eq_refl end).

(** [f'{c}'] *)
Definition fmt_cell (c : cell) : string :=
  match c with NaN => "nan" | Str s => s end.

(** The six authorship columns of the target sheet. *)
Inductive Category : Type :=
| FirstAuthor          (* 'First author(s)' *)
| Contrib1             (* 'Contributing authors list #1' *)
| Contrib2             (* 'Contributing authors list #2' *)
| ConsortiumCoord      (* 'Consortium Coordinators' *)
| ScientificDirector   (* 'Scientific Directors' *)
| Contrib3.            (* 'Contributing authors list #3' *)

#[global] Instance Category_eq_dec : EqDecision Category.
Proof. solve_decision. Defined.

Definition column_name (c : Category) : string :=
  match c with
  | FirstAuthor => "First author(s)"
  | Contrib1 => "Contributing authors list #1"
  | Contrib2 => "Contributing authors list #2"
  | ConsortiumCoord => "Consortium Coordinators"
  | ScientificDirector => "Scientific Directors"
  | Contrib3 => "Contributing authors list #3"
  end.

(** [self.author_categories] *)
Definition author_categories : list Category :=
  [FirstAuthor; Contrib1; Contrib2; ConsortiumCoord; ScientificDirector; Contrib3].

(** A row of the target sheet as loaded: a numeric cell is blank ([None])
    or holds a number. *)
Record MemberRow : Type := {
  m_last_name : cell;
  m_first_name : cell;
  m_first_author : option Z;
  m_contrib1 : option Z;
  m_contrib2 : option Z;
  m_consortium_coord : option Z;
  m_scientific_director : option Z;
  m_contrib3 : option Z;
  m_sum : option Z
}.

Definition m_weight (r : MemberRow) (c : Category) : option Z :=
  match c with
  | FirstAuthor => m_first_author r
  | Contrib1 => m_contrib1 r
  | Contrib2 => m_contrib2 r
  | ConsortiumCoord => m_consortium_coord r
  | ScientificDirector => m_scientific_director r
  | Contrib3 => m_contrib3 r
  end.

(** A row of the target sheet after [fillna(value=0)] and the column
    selection.  A blank name cell becomes the integer 0 there; it stays
    [NaN] here, since building the key from it raises [TypeError] either
    way. *)
Record OrderRow : Type := {
  o_last_name : cell;
  o_first_name : cell;
  o_weight : Category → Z;
  o_sum : Z
}.

(** A row of the 'Template' sheet, restricted to the five columns kept. *)
Record InfoRow : Type := {
  last_name : cell;
  first_name : cell;
  first_name_initials : cell;
  affiliation : cell;
  ORCID : cell
}.

(** A DataFrame whose index has been set: rows in table order, each with
    its label. *)
Definition frame (R : Type) : Type := list (string * R).

(** [df.index] *)
Definition index {R : Type} (df : frame R) : list string := df.*1.

(** The row that [df.at[label, _]] reads.  Both tables are indexed only
    after their labels were asserted unique, so the first match is the
    only one. *)
Fixpoint df_row {R : Type} (df : frame R) (label : string) : result R :=
  match df with
  | [] => Raise (KeyError label)
  | (k, r) :: df' => if String.eqb k label then Ok r else df_row df' label
  end.

(** [df.at[label, col]] *)
Definition df_at {R V : Type} (df : frame R) (label : string) (col : R → V)
  : result V :=
  r ← df_row df label; Ok (col r).

(** ** Author keys *)

(** Number of bytes of the UTF-8 character that starts with byte [c]. *)
Definition utf8_width (c : ascii) : nat :=
  let n := nat_of_ascii c in
  if (n <? 128)%nat then 1 else if (n <? 224)%nat then 2
  else if (n <? 240)%nat then 3 else 4.

(** [last_name + first_name[0]] *)
Definition author_key (last first : cell) : result string :=
  match first with
  | NaN => Raise TypeError
  | Str "" => Raise IndexError
  | Str (String c _ as f) =>
      match last with
      | NaN => Raise TypeError
      | Str l => Ok (l +:+ substring 0 (utf8_width c) f)
      end
  end.

(** [assert (len(name_index) == len(set(name_index)))] *)
Definition assert_unique (name_index : list string) : result unit :=
  py_assert (length name_index =? size (list_to_set name_index : gset string))%nat.

(** ** [_make_author_order] *)

(** [df['sum'] > 0]: false on a blank cell. *)
Definition sum_positive (r : MemberRow) : bool :=
  match m_sum r with
  | Some s => (0 <? s)%Z
  | None => false
  end.

Definition fillna (r : MemberRow) : OrderRow :=
  {| o_last_name := m_last_name r;
     o_first_name := m_first_name r;
     o_weight := λ c, default 0%Z (m_weight r c);
     o_sum := default 0%Z (m_sum r) |}.

(** The rows that take part in the ordering. *)
Definition filtered_rows (sheet : list MemberRow) : list OrderRow :=
  fillna <$> List.filter sum_positive sheet.

(** [a and b]: [b] is evaluated only when [a] is true. *)
Definition py_and (a b : result bool) : result bool :=
  a ≫= λ x : bool, if x then b else Ok false.

(** The [if] of the loop over the first four categories. *)
Definition ordinary_body (df : frame OrderRow) (author_category : Category)
    (author_order_list : list string) (author : string) : result (list string) :=
  placed ←
    py_and (Ok (bool_decide (author ∉ author_order_list)))
   (py_and (w ← df_at df author (λ r, o_weight r author_category); Ok (0 <? w)%Z)
   (py_and (w ← df_at df author (λ r, o_weight r ScientificDirector); Ok (w =? 0)%Z)
           (w ← df_at df author (λ r, o_weight r Contrib3); Ok (w =? 0)%Z)));
  Ok (if placed : bool then author_order_list ++ [author] else author_order_list).

(** The [if] of the loop over the two override categories. *)
Definition override_body (df : frame OrderRow) (author_category : Category)
    (author_order_list : list string) (author : string) : result (list string) :=
  placed ←
    py_and (Ok (bool_decide (author ∉ author_order_list)))
           (w ← df_at df author (λ r, o_weight r author_category); Ok (0 <? w)%Z);
  Ok (if placed : bool then author_order_list ++ [author] else author_order_list).

(** One iteration of [for author_category in self.author_categories]. *)
Definition category_pass (df : frame OrderRow)
    (author_order_list : list string) (author_category : Category)
  : result (list string) :=
  if bool_decide (author_category ∉ [ScientificDirector; Contrib3]) then
    for_each (ordinary_body df author_category) (index df) author_order_list
  else
    for_each (override_body df author_category) (index df) author_order_list.

(** The nested loops, from [author_order_list = []] up to the assertion. *)
Definition order_loop (df : frame OrderRow) : result (list string) :=
  for_each (category_pass df) author_categories [].

(** The index that [_make_author_order] builds for the filtered rows. *)
Definition order_index (rows : list OrderRow) : result (list string) :=
  comprehension (λ r, author_key (o_last_name r) (o_first_name r)) rows.

Definition _make_author_order (sheet : list MemberRow) : result (list string) :=
  let rows := filtered_rows sheet in
  name_index ← order_index rows;
  _ ← assert_unique name_index;
  let df : frame OrderRow := zip name_index rows in
  author_order_list ← order_loop df;
  _ ← py_assert (length author_order_list =? length (index df))%nat;
  Ok author_order_list.

(** ** [_make_author_info_df] *)

Definition set_affiliation_cell (r : InfoRow) (value : cell) : InfoRow :=
  {| last_name := last_name r; first_name := first_name r;
     first_name_initials := first_name_initials r;
     affiliation := value; ORCID := ORCID r |}.

(** [df.at[label, 'affiliation'] = value].  Setting at a label the index
    lacks enlarges the frame by a row whose other cells are blank. *)
Fixpoint set_at_affiliation (df : frame InfoRow) (label : string) (value : cell)
  : frame InfoRow :=
  match df with
  | [] => [(label, {| last_name := NaN; first_name := NaN;
                      first_name_initials := NaN;
                      affiliation := value; ORCID := NaN |})]
  | (k, r) :: df' =>
      if String.eqb k label then (k, set_affiliation_cell r value) :: df'
      else (k, r) :: set_at_affiliation df' label value
  end.

(** [df.loc[label] = row]: overwrite the row, or append it. *)
Fixpoint set_loc (df : frame InfoRow) (label : string) (row : InfoRow)
  : frame InfoRow :=
  match df with
  | [] => [(label, row)]
  | (k, r) :: df' =>
      if String.eqb k label then (k, row) :: df'
      else (k, r) :: set_loc df' label row
  end.

Definition Clayssen : InfoRow :=
  {| last_name := Str "Clayssen"; first_name := Str "Quentin";
     first_name_initials := Str "C."; affiliation := Str "not-provided";
     ORCID := Str "not-provided" |}.

(** [template] is the 'Template' sheet after [dropna(how='all')] and the
    selection of the five columns. *)
Definition _make_author_info_df (template : list InfoRow)
  : result (frame InfoRow) :=
  name_index ← comprehension (λ r, author_key (last_name r) (first_name r)) template;
  _ ← assert_unique name_index;
  let df : frame InfoRow := zip name_index template in
  let df := set_at_affiliation df "PogoreutzC"
    (Str "Department of Biology, University of Konstanz, 78457 Konstanz, Germany") in
  let df := set_loc df "ClayssenQ" Clayssen in
  Ok df.

(** ** [_make_affiliations_dicts] *)

(** [d[k]] on a dict. *)
Definition dict_get `{Countable K} {V : Type} (repr : K → string)
    (d : gmap K V) (k : K) : result V :=
  match d !! k with
  | Some v => Ok v
  | None => Raise (KeyError (repr k))
  end.

(** [d[k]] on a [defaultdict(list)]. *)
Definition defaultdict_get `{Countable K} {V : Type} (d : gmap K (list V)) (k : K)
  : list V :=
  default [] (d !! k).

(** [d[k].append(v)] on a [defaultdict(list)]. *)
Definition defaultdict_append `{Countable K} {V : Type} (d : gmap K (list V))
    (k : K) (v : V) : gmap K (list V) :=
  <[k := defaultdict_get d k ++ [v]]> d.

Record Registry : Type := {
  affiliation_list : list cell;
  affil_str_to_affil_num_dict : gmap cell nat;
  affil_num_to_affil_str_dict : gmap nat cell;
  author_to_affil_num_list_dict : gmap string (list nat)
}.

Definition empty_registry : Registry :=
  {| affiliation_list := []; affil_str_to_affil_num_dict := ∅;
     affil_num_to_affil_str_dict := ∅; author_to_affil_num_list_dict := ∅ |}.

(** The body of [for affil_string in author_affil_list]. *)
Definition affil_string_body (author : string) (st : Registry) (affil_string : cell)
  : result Registry :=
  if bool_decide (affil_string ∉ affiliation_list st) then
    let affiliation_list' := affiliation_list st ++ [affil_string] in
    Ok {| affiliation_list := affiliation_list';
          affil_str_to_affil_num_dict :=
            <[affil_string := length affiliation_list']>
              (affil_str_to_affil_num_dict st);
          author_to_affil_num_list_dict :=
            defaultdict_append (author_to_affil_num_list_dict st) author
                               (length affiliation_list');
          affil_num_to_affil_str_dict :=
            <[length affiliation_list' := affil_string]>
              (affil_num_to_affil_str_dict st) |}
  else
    n ← dict_get fmt_cell (affil_str_to_affil_num_dict st) affil_string;
    Ok {| affiliation_list := affiliation_list st;
          affil_str_to_affil_num_dict := affil_str_to_affil_num_dict st;
          author_to_affil_num_list_dict :=
            defaultdict_append (author_to_affil_num_list_dict st) author n;
          affil_num_to_affil_str_dict := affil_num_to_affil_str_dict st |}.

Definition no_affiliation_message (author : string) : string :=
  "An affiliation could not be found for " +:+ author +:+ newline +:+
  "No affiliation will be associated.".

(** The [try] ... [except KeyError] around the affiliation lookup. *)
Definition author_affil_list (author_info_df : frame InfoRow) (author : string)
  : result (list cell) :=
  match df_at author_info_df author affiliation with
  | Ok a => Ok [a]
  | Raise (KeyError _) => Raise (RuntimeWarning (no_affiliation_message author))
  | Raise e => Raise e
  end.

(** The body of [for author in self.author_order]. *)
Definition affil_author_body (author_info_df : frame InfoRow) (st : Registry)
    (author : string) : result Registry :=
  affils ← author_affil_list author_info_df author;
  for_each (affil_string_body author) affils st.

Definition _make_affiliations_dicts (author_info_df : frame InfoRow)
    (author_order : list string) : result Registry :=
  for_each (affil_author_body author_info_df) author_order empty_registry.

(** ** [_make_creator_array] *)

(** One creator dict; its keys are 'name', 'affiliation' and 'orcid'. *)
Definition creator_dict (author_info_df : frame InfoRow) (author : string)
  : result (gmap string cell) :=
  last ← df_at author_info_df author last_name;
  first ← df_at author_info_df author first_name;
  let author_dict : gmap string cell :=
    <["name" := Str (fmt_cell last +:+ ", " +:+ fmt_cell first)]> ∅ in
  affil ← df_at author_info_df author affiliation;
  author_dict ←
    (if bool_decide (affil ≠ Str "not-provided") then
       affil' ← df_at author_info_df author affiliation;
       Ok (<["affiliation" := affil']> author_dict)
     else Ok author_dict);
  orcid ← df_at author_info_df author ORCID;
  if bool_decide (orcid ≠ Str "not-provided") then
    orcid' ← df_at author_info_df author ORCID;
    Ok (<["orcid" := orcid']> author_dict)
  else Ok author_dict.

Definition _make_creator_array (author_info_df : frame InfoRow)
    (author_order : list string) : result (list (gmap string cell)) :=
  comprehension (creator_dict author_info_df) author_order.

(** ** Output strings *)

Definition _create_author_without_affiliation_string
    (author_info_df : frame InfoRow) (author_order : list string) : result string :=
  parts ← comprehension (λ author,
      last ← df_at author_info_df author last_name;
      initials ← df_at author_info_df author first_name_initials;
      Ok (fmt_cell last +:+ ", " +:+ fmt_cell initials)) author_order;
  Ok (join "; " parts).

Definition _create_author_with_affiliation_string
    (author_info_df : frame InfoRow) (author_order : list string)
    (reg : Registry) : result string :=
  parts ← comprehension (λ author,
      affil_super_script_list ←
        comprehension (λ affil_num : nat, _superscript (Z.of_nat affil_num))
          (defaultdict_get (author_to_affil_num_list_dict reg) author);
      let sup_affil_string := join "˒" affil_super_script_list in
      last ← df_at author_info_df author last_name;
      initials ← df_at author_info_df author first_name_initials;
      Ok (fmt_cell last +:+ ", " +:+ fmt_cell initials +:+ sup_affil_string))
    author_order;
  Ok (join "; " parts).

Definition str_nat (n : nat) : string := str_int (Z.of_nat n).

(** The list comprehension shared by both affiliation strings:
    [f'{affil_num + 1}-{self.affil_num_to_affil_str_dict[affil_num + 1]}']
    for [affil_num in range(len(self.affiliation_list))]. *)
Definition affiliation_entries (reg : Registry) : result (list string) :=
  comprehension (λ affil_num : nat,
      s ← dict_get str_nat (affil_num_to_affil_str_dict reg) (affil_num + 1);
      Ok (str_nat (affil_num + 1) +:+ "-" +:+ fmt_cell s))
    (seq 0 (length (affiliation_list reg))).

(** Returns [(affiliations_new_lines, affiliations_one_line)]. *)
Definition _create_affiliation_strings (reg : Registry) : result (string * string) :=
  one_line ← affiliation_entries reg;
  new_lines ← affiliation_entries reg;
  Ok (join (";" +:+ newline) new_lines, join "; " one_line).

(** ** Command line, host and remote service *)

(** The parsed command line ([self.args]); an optional flag that was not
    passed is [None]. *)
Record Args : Type := {
  excel_path : string;
  target_sheet_name : string;
  output_dir_path : string;
  submission : bool;
  access_token_path : option string;
  data_file_paths : option string;
  meta_title : option string;
  meta_description : option string;
  references : option string
}.

(** The host the script runs on. *)
Record Host : Type := {
  isdir : string → bool;        (* os.path.isdir *)
  isfile : string → bool;       (* os.path.isfile *)
  path_exists : string → bool;  (* os.path.exists *)
  (** the lines of the file, each with its line end; [None] when [open]
      or the reading fails *)
  read_lines : string → option (list string);
  basename : string → string;   (* ntpath.basename *)
  (** the exception that [open], or the reading, raises where [read_lines]
      is [None]: [FileNotFoundError], [IsADirectoryError],
      [PermissionError], ... *)
  open_error : string → exn;
  path_join : string → string → string;  (* os.path.join *)
  (** [open(path, 'w')] followed by the writes of the text: [None] when
      all of it succeeds, else the exception raised ([OSError] and its
      kin, [UnicodeEncodeError]) *)
  write_text : string → string → option exn
}.

(** The workbook at [excel_path]: the 'Template' sheet and the sheet named
    [target_sheet_name], both after [dropna(how='all')]. *)
Record Workbook : Type := {
  template_sheet : list InfoRow;
  target_sheet : list MemberRow
}.

(** [open(path, mode)] and the reading of the file. *)
Definition py_open (host : Host) (path : string) : result (list string) :=
  match read_lines host path with
  | Some lines => Ok lines
  | None => Raise (open_error host path)
  end.

(** [with open(path, 'w') as f: for line in text: f.write(line)]: the
    characters of [text] are written one by one, which leaves [text] in
    the file. *)
Definition py_write (host : Host) (path text : string) : result unit :=
  match write_text host path text with
  | None => Ok tt
  | Some e => Raise e
  end.

(** The whitespace that [str.rstrip()] strips, on the UTF-8 bytes of the
    string: the ASCII characters 9 to 13 and 28 to 32, and the characters
    U+0085, U+00A0, U+1680, U+2000 to U+200A, U+2028, U+2029, U+202F,
    U+205F and U+3000. *)
Definition is_space (c : ascii) : bool :=
  let n := nat_of_ascii c in
  ((9 <=? n)%nat && (n <=? 13)%nat) || ((28 <=? n)%nat && (n <=? 32)%nat).

(** The two-byte whitespace characters: U+0085 and U+00A0. *)
Definition is_space2 (c1 c2 : ascii) : bool :=
  (nat_of_ascii c1 =? 194)%nat
  && ((nat_of_ascii c2 =? 133)%nat || (nat_of_ascii c2 =? 160)%nat).

(** The three-byte whitespace characters. *)
Definition is_space3 (c1 c2 c3 : ascii) : bool :=
  let n1 := nat_of_ascii c1 in
  let n2 := nat_of_ascii c2 in
  let n3 := nat_of_ascii c3 in
  ((n1 =? 225)%nat && (n2 =? 154)%nat && (n3 =? 128)%nat)          (* U+1680 *)
  || ((n1 =? 226)%nat && (n2 =? 128)%nat
      && (((128 <=? n3)%nat && (n3 <=? 138)%nat)                (* U+2000-200A *)
          || (n3 =? 168)%nat || (n3 =? 169)%nat || (n3 =? 175)%nat))
  || ((n1 =? 226)%nat && (n2 =? 129)%nat && (n3 =? 159)%nat)       (* U+205F *)
  || ((n1 =? 227)%nat && (n2 =? 128)%nat && (n3 =? 128)%nat).      (* U+3000 *)

(** The string is made of whitespace characters only. *)
Fixpoint all_space (s : string) : bool :=
  match s with
  | EmptyString => true
  | String c1 s1 =>
      if is_space c1 then all_space s1
      else match s1 with
           | EmptyString => false
           | String c2 s2 =>
               if is_space2 c1 c2 then all_space s2
               else match s2 with
                    | EmptyString => false
                    | String c3 s3 =>
                        if is_space3 c1 c2 c3 then all_space s3 else false
                    end
           end
  end.

(** [s.rstrip()]: the string without its longest suffix of whitespace. *)
Fixpoint rstrip (s : string) : string :=
  match s with
  | EmptyString => EmptyString
  | String c s' => if all_space s then EmptyString else String c (rstrip s')
  end.

(** [s.split(',')] *)
Fixpoint split_comma (s : string) : list string :=
  match s with
  | EmptyString => [EmptyString]
  | String c s' =>
      if Ascii.eqb c ","%char then EmptyString :: split_comma s'
      else match split_comma s' with
           | [] => [String c EmptyString]
           | part :: parts => String c part :: parts
           end
  end.

(** ** [_get_and_check_datafile_paths] *)

(** The paths that are not files, in the order given. *)
Definition no_file (host : Host) (data_file_path_list : list string) : list string :=
  List.filter (λ data_file, negb (isfile host data_file)) data_file_path_list.

Definition missing_files_message (missing : list string) : string :=
  "The following files for upload could not be found " +:+
  join newline ((λ file, tab +:+ file) <$> missing).

Definition _get_and_check_datafile_paths (host : Host) (args : Args)
  : result (list string) :=
  match data_file_paths args with
  | None => Ok []
  | Some EmptyString => Ok []
  | Some paths =>
      let data_file_path_list := split_comma paths in
      (* [if not data_file_path_list]: a split is never empty *)
      match data_file_path_list with
      | [] => Ok []
      | _ =>
          match no_file host data_file_path_list with
          | [] => Ok data_file_path_list
          | missing => Raise (FileNotFoundError (missing_files_message missing))
          end
      end
  end.

(** ** [_setup_submission_vars] *)

Record SubmissionVars : Type := {
  data_file_path_list : list string;
  sv_meta_title : string;
  sv_meta_description : string;
  access_token : string;
  sv_references : list string
}.

Definition _setup_submission_vars (host : Host) (args : Args)
  : result SubmissionVars :=
  paths ← _get_and_check_datafile_paths host args;
  title ← match meta_title args return result string with
          | None | Some EmptyString => Raise (RuntimeError "Please provide a valid title")
          | Some t => Ok t
          end;
  description ← match meta_description args return result string with
                | None => Raise TypeError
                | Some d =>
                    if isfile host d then
                      lines ← py_open host d;
                      Ok (join newline (rstrip <$> (lines : list string)))
                    else Ok d
                end;
  token ← match access_token_path args return result string with
          | None => Raise TypeError
          | Some path => lines ← py_open host path; Ok (rstrip (hd EmptyString lines))
          end;
  refs ← match references args return result (list string) with
         | None | Some EmptyString => Ok []
         | Some path =>
             if negb (path_exists host path) then
               Raise (FileNotFoundError (path +:+ " not found"))
             else lines ← py_open host path; Ok (rstrip <$> (lines : list string))
         end;
  Ok {| data_file_path_list := paths; sv_meta_title := title;
        sv_meta_description := description; access_token := token;
        sv_references := refs |}.

(** ** The remote API *)

(** A decoded JSON document. *)
#[warnings="-register-all"]
Inductive JSON : Type :=
| JNull
| JBool (b : bool)
| JNum (n : Z)
| JStr (s : string)
| JArr (items : list JSON)
| JObj (fields : list (string * JSON)).

(** What [requests] hands back: the status, the text of the body and
    what the text decodes to, [None] when it is not JSON. *)
Record Response : Type := {
  status_code : Z;
  text : string;
  json_body : option JSON
}.

(** [response.json()]; the error of a body that is not JSON holds the
    text. *)
Definition response_json (r : Response) : result JSON :=
  match json_body r with
  | Some j => Ok j
  | None => Raise (JSONDecodeError (text r))
  end.

Fixpoint fields_get (fields : list (string * JSON)) (key : string) : result JSON :=
  match fields with
  | [] => Raise (KeyError key)
  | (k, v) :: fields' => if String.eqb k key then Ok v else fields_get fields' key
  end.

(** [j[key]] for a string key. *)
Definition json_item (j : JSON) (key : string) : result JSON :=
  match j with
  | JObj fields => fields_get fields key
  | _ => Raise TypeError
  end.

(** The document sent as metadata; the fixed fields are spelled out in
    [_make_meta_data_object]. *)
Record MetaData : Type := {
  title : string;
  upload_type : string;
  description : string;
  access_right : string;
  license : string;
  access_conditions : string;
  communities : list string;
  version : string;
  language : string;
  creators : list (gmap string cell);
  notes : string;
  md_references : list string
}.

(** The three calls the script makes.  The values interpolated into a URL
    are kept as they came out of the earlier response. *)
Inductive Request : Type :=
| PostDeposition (token : string)
| PutFile (bucket_url : JSON) (filename : string) (path : string) (token : string)
| PutMetaData (deposition_id : JSON) (data : MetaData) (token : string).

(** The remote service: its answer to a request, given the requests it
    has already received. *)
Definition Server : Type := list Request → Request → Response.

(** Code that talks to the service: it extends the log of requests sent and
    may raise. *)
Definition Net (A : Type) : Type := list Request → result A * list Request.

Definition net_ret {A : Type} (a : A) : Net A := λ log, (Ok a, log).

Definition net_bind {A B : Type} (m : Net A) (f : A → Net B) : Net B :=
  λ log, match m log with
         | (Ok a, log') => f a log'
         | (Raise e, log') => (Raise e, log')
         end.

(** Code that does not talk to the service. *)
Definition net_lift {A : Type} (r : result A) : Net A := λ log, (r, log).

(** [requests.post] and [requests.put]: one request, one response, whatever
    the status.  A request that gets no response at all (no connection) is
    outside this model. *)
Definition net_send (server : Server) (req : Request) : Net Response :=
  λ log, (Ok (server log req), log ++ [req]).

Notation "x ⇐ m ;; k" := (net_bind m (λ x, k))
  (at level 100, m at next level, right associativity, only parsing).

Fixpoint net_for_each {A : Type} (body : A → Net unit) (xs : list A) : Net unit :=
  match xs with
  | [] => net_ret tt
  | x :: xs' => _ ⇐ body x ;; net_for_each body xs'
  end.

(** ** [do_zenodo_submission] *)

Definition _get_notes : string :=
  "Special thanks to the Tara Ocean Foundation, the R/V Tara crew and the Tara Pacific Expedition " +:+
  "Participants (https://doi.org/10.5281/zenodo.3777760). We are keen to thank the commitment of " +:+
  "the following institutions for their financial and scientific support that made this unique Tara " +:+
  "Pacific Expedition possible: CNRS, PSL, CSM, EPHE, Genoscope, CEA, Inserm, Université Côte d'Azur, " +:+
  "ANR, agnès b., UNESCO-IOC, the Veolia Foundation, the Prince Albert II de Monaco Foundation, " +:+
  "Région Bretagne, Billerudkorsnas, AmerisourceBergen Company, Lorient Agglomération, Oceans by " +:+
  "Disney, L'Oréal, Biotherm, France Collectivités, Fonds Français pour l'Environnement Mondial (FFEM), " +:+
  "Etienne Bourgois, and the Tara Ocean Foundation teams. Tara Pacific would not exist without the " +:+
  "continuous support of the participating institutes. The authors also particularly thank Serge " +:+
  "Planes, Denis Allemand, and the Tara Pacific consortium.".

Definition _make_meta_data_object (sv : SubmissionVars)
    (creator_array : list (gmap string cell)) : MetaData :=
  {| title := sv_meta_title sv;
     upload_type := "dataset";
     description := sv_meta_description sv;
     access_right := "restricted";
     license := "CC-BY-4.0";
     access_conditions := "Any Tara Pacific Expedition participant may request access.";
     communities := ["tarapacific"];
     version := "1";
     language := "eng";
     creators := creator_array;
     notes := _get_notes;
     md_references := sv_references sv |}.

Definition _create_blank_deposition (server : Server) (sv : SubmissionVars)
  : Net (JSON * JSON) :=
  create_blank_depo_response ⇐ net_send server (PostDeposition (access_token sv)) ;;
  bucket_url ⇐ net_lift (j ← response_json create_blank_depo_response;
                         links ← json_item j "links"; json_item links "bucket") ;;
  deposition_id ⇐ net_lift (j ← response_json create_blank_depo_response;
                            json_item j "id") ;;
  net_ret (bucket_url, deposition_id).

Definition _prepare_filenames_and_paths (host : Host) (sv : SubmissionVars)
  : list string :=
  basename host <$> data_file_path_list sv.

(** The body of the upload loop for one [(path, filename)]: open the file,
    put it; the response [r] is dropped. *)
Definition upload_body (host : Host) (server : Server) (sv : SubmissionVars)
    (bucket_url : JSON) (pf : string * string) : Net unit :=
  _ ⇐ net_lift (py_open host pf.1) ;;
  _ ⇐ net_send server (PutFile bucket_url pf.2 pf.1 (access_token sv)) ;;
  net_ret tt.

Definition _upload_files_to_deposition (host : Host) (server : Server)
    (sv : SubmissionVars) (bucket_url : JSON) (filename_list : list string)
  : Net unit :=
  net_for_each (upload_body host server sv bucket_url)
    (zip (data_file_path_list sv) filename_list).

Definition _associate_meta_data (server : Server) (sv : SubmissionVars)
    (data : MetaData) (deposition_id : JSON) : Net Response :=
  net_send server (PutMetaData deposition_id data (access_token sv)).

(** Returns the link printed in the closing message. *)
Definition do_zenodo_submission (host : Host) (server : Server)
    (sv : SubmissionVars) (creator_array : list (gmap string cell)) : Net JSON :=
  ids ⇐ _create_blank_deposition server sv ;;
  _ ⇐ match data_file_path_list sv with
      | [] => net_ret tt
      | _ => let filename_list := _prepare_filenames_and_paths host sv in
             _upload_files_to_deposition host server sv ids.1 filename_list
      end ;;
  let data := _make_meta_data_object sv creator_array in
  meta_data_response ⇐ _associate_meta_data server sv data ids.2 ;;
  net_lift (j ← response_json meta_data_response;
            links ← json_item j "links"; json_item links "html").

(** ** The script *)

Record AuthorInfoExtraction : Type := {
  output_dir : string;
  aie_submission : option SubmissionVars;
  author_info_df : frame InfoRow;
  author_order : list string;
  aie_registry : Registry;
  creator_array : list (gmap string cell)
}.

(** [AuthorInfoExtraction.__init__] *)
Definition init (host : Host) (book : Workbook) (args : Args)
  : result AuthorInfoExtraction :=
  _ ← (if isdir host (output_dir_path args) then Ok tt
       else Raise (RuntimeError (output_dir_path args +:+
                                 " is not a recognized directory")));
  sub ← (if submission args then sv ← _setup_submission_vars host args; Ok (Some sv)
         else Ok None);
  df ← _make_author_info_df (template_sheet book);
  order ← _make_author_order (target_sheet book);
  reg ← _make_affiliations_dicts df order;
  creators ← _make_creator_array df order;
  Ok {| output_dir := output_dir_path args;
        aie_submission := sub; author_info_df := df; author_order := order;
        aie_registry := reg; creator_array := creators |}.

(** The four strings that [output_author_info] writes out. *)
Record Outputs : Type := {
  author_string_w_o_affiliation_numbers : string;
  author_string_w_affiliation_numbers : string;
  affiliations_one_line : string;
  affiliations_new_lines : string
}.

(** The first three statements of [output_author_info]: the strings. *)
Definition output_strings (aie : AuthorInfoExtraction) : result Outputs :=
  without ← _create_author_without_affiliation_string
              (author_info_df aie) (author_order aie);
  with_numbers ← _create_author_with_affiliation_string
              (author_info_df aie) (author_order aie) (aie_registry aie);
  affils ← _create_affiliation_strings (aie_registry aie);
  Ok {| author_string_w_o_affiliation_numbers := without;
        author_string_w_affiliation_numbers := with_numbers;
        affiliations_one_line := affils.2;
        affiliations_new_lines := affils.1 |}.

(** The four files, in the order they are written. *)
Definition _write_out_author_and_affiliations (host : Host) (dir : string)
    (outputs : Outputs) : result unit :=
  _ ← py_write host (path_join host dir "author_string_w_o_affiliation_numbers.txt")
        (author_string_w_o_affiliation_numbers outputs);
  _ ← py_write host (path_join host dir "author_string_w_affiliation_numbers.txt")
        (author_string_w_affiliation_numbers outputs);
  _ ← py_write host (path_join host dir "affiliations_one_line.txt")
        (affiliations_one_line outputs);
  py_write host (path_join host dir "affiliations_new_lines.txt")
    (affiliations_new_lines outputs).

Definition output_author_info (host : Host) (aie : AuthorInfoExtraction)
  : result Outputs :=
  outputs ← output_strings aie;
  _ ← _write_out_author_and_affiliations host (output_dir aie) outputs;
  Ok outputs.

(** The module body: construct, write the outputs, submit when asked to.
    On success the result holds the outputs and, after a submission, the
    link to it. *)
Definition script (host : Host) (book : Workbook) (server : Server) (args : Args)
  : Net (Outputs * option JSON) :=
  aie ⇐ net_lift (init host book args) ;;
  outputs ⇐ net_lift (output_author_info host aie) ;;
  match aie_submission aie with
  | Some sv =>
      link ⇐ do_zenodo_submission host server sv (creator_array aie) ;;
      net_ret (outputs, Some link)
  | None => net_ret (outputs, None)
  end.

(** A run starts with nothing sent. *)
Definition run (host : Host) (book : Workbook) (server : Server) (args : Args)
  : result (Outputs * option JSON) * list Request :=
  script host book server args [].

(** * Vocabulary of the properties *)

(** ** Decimal digits *)

(** The decimal digits of a [Decimal.uint], most significant first. *)
Fixpoint uint_digits (d : Decimal.uint) : list nat :=
  match d with
  | Decimal.Nil => []
  | Decimal.D0 d => 0 :: uint_digits d
  | Decimal.D1 d => 1 :: uint_digits d
  | Decimal.D2 d => 2 :: uint_digits d
  | Decimal.D3 d => 3 :: uint_digits d
  | Decimal.D4 d => 4 :: uint_digits d
  | Decimal.D5 d => 5 :: uint_digits d
  | Decimal.D6 d => 6 :: uint_digits d
  | Decimal.D7 d => 7 :: uint_digits d
  | Decimal.D8 d => 8 :: uint_digits d
  | Decimal.D9 d => 9 :: uint_digits d
  end.

(** The ASCII digit for [d < 10]. *)
Definition digit_char (d : nat) : ascii := ascii_of_nat (48 + d).

(** The Unicode superscript digit for [d < 10]. *)
Definition superscript_digit (d : nat) : string :=
  nth d ["⁰"; "¹"; "²"; "³"; "⁴"; "⁵"; "⁶"; "⁷"; "⁸"; "⁹"] "".

(** The number a digit sequence denotes, most significant digit first. *)
Definition digits_value (ds : list nat) : Z :=
  foldl (λ acc d, 10 * acc + Z.of_nat d)%Z 0%Z ds.

(** The digit-wise image of a digit sequence, concatenated in order. *)
Definition superscript_digits (ds : list nat) : string :=
  foldr String.append "" (superscript_digit <$> ds).

(** ** Sample inputs *)

(** A host whose only file is [a.txt] and whose only directory is [out]. *)
Definition sample_host : Host :=
  {| isdir := λ p, String.eqb p "out";
     isfile := λ p, String.eqb p "a.txt";
     path_exists := λ p, String.eqb p "a.txt" || String.eqb p "out";
     read_lines := λ p, if String.eqb p "a.txt" then Some ["data"] else None;
     basename := λ p, p;
     open_error := λ p, FileNotFoundError p;
     path_join := λ dir name, dir +:+ "/" +:+ name;
     write_text := λ _ _, None |}.


(** A service that answers everything with status 200 and an empty object. *)
Definition idle_server : Server :=
  λ _ _, {| status_code := 200; text := "{}"; json_body := Some (JObj []) |}.


(** ** Registries *)

(** The three views of the numbering agree: the dictionaries number the
    strings of [affiliation_list] by position, counting from 1. *)
Record registry_wf (st : Registry) : Prop := {
  wf_nodup : NoDup (affiliation_list st);
  wf_str_to_num : ∀ s n,
    affil_str_to_affil_num_dict st !! s = Some n
    ↔ ∃ i, n = S i ∧ affiliation_list st !! i = Some s;
  wf_num_to_str : ∀ n s,
    affil_num_to_affil_str_dict st !! n = Some s
    ↔ ∃ i, n = S i ∧ affiliation_list st !! i = Some s
}.

(** The registry after a first-seen string [s] of [author]. *)
Definition registry_new (author : string) (st : Registry) (s : cell) : Registry :=
  let n := S (length (affiliation_list st)) in
  {| affiliation_list := affiliation_list st ++ [s];
     affil_str_to_affil_num_dict := <[s := n]> (affil_str_to_affil_num_dict st);
     author_to_affil_num_list_dict :=
       defaultdict_append (author_to_affil_num_list_dict st) author n;
     affil_num_to_affil_str_dict := <[n := s]> (affil_num_to_affil_str_dict st) |}.

(** The registry after [author] re-used the number [n]. *)
Definition registry_seen (author : string) (st : Registry) (n : nat) : Registry :=
  {| affiliation_list := affiliation_list st;
     affil_str_to_affil_num_dict := affil_str_to_affil_num_dict st;
     author_to_affil_num_list_dict :=
       defaultdict_append (author_to_affil_num_list_dict st) author n;
     affil_num_to_affil_str_dict := affil_num_to_affil_str_dict st |}.

(** A master table of three authors, two of them at the same laboratory,
    as [_make_author_info_df] indexes it. *)
Definition info_row (l f i a o : string) : InfoRow :=
  {| last_name := Str l; first_name := Str f; first_name_initials := Str i;
     affiliation := Str a; ORCID := Str o |}.

Definition sample_template : list InfoRow :=
  [ info_row "Smith" "John" "J." "Lab1" "0000-0001";
    info_row "Doe" "Ann" "A." "Lab2" "not-provided";
    info_row "Lee" "Kim" "K." "Lab1" "0000-0003" ].

Definition sample_df : frame InfoRow :=
  [ ("SmithJ", info_row "Smith" "John" "J." "Lab1" "0000-0001");
    ("DoeA", info_row "Doe" "Ann" "A." "Lab2" "not-provided");
    ("LeeK", info_row "Lee" "Kim" "K." "Lab1" "0000-0003");
    ("ClayssenQ", Clayssen) ].

Definition sample_order : list string := ["SmithJ"; "DoeA"; "LeeK"; "ClayssenQ"].

(** The registry of [sample_order] over [sample_df]. *)
Definition sample_registry : Registry :=
  {| affiliation_list := [Str "Lab1"; Str "Lab2"; Str "not-provided"];
     affil_str_to_affil_num_dict :=
       <[Str "not-provided" := 3]> (<[Str "Lab2" := 2]> (<[Str "Lab1" := 1]> ∅));
     affil_num_to_affil_str_dict :=
       <[3 := Str "not-provided"]> (<[2 := Str "Lab2"]> (<[1 := Str "Lab1"]> ∅));
     author_to_affil_num_list_dict :=
       <["ClayssenQ" := [3]]> (<["LeeK" := [1]]> (<["DoeA" := [2]]>
         (<["SmithJ" := [1]]> ∅))) |}.

(** One entry of the affiliation strings: the 1-based number of the place
    [i], a dash, the string. *)
Definition affiliation_entry (i : nat) (s : cell) : string :=
  str_nat (i + 1) +:+ "-" +:+ fmt_cell s.

(** The creator dict of a row of the master table. *)
Definition creator_of_row (r : InfoRow) : gmap string cell :=
  let named : gmap string cell :=
    <["name" := Str (fmt_cell (last_name r) +:+ ", " +:+ fmt_cell (first_name r))]> ∅ in
  let affiliated :=
    if bool_decide (affiliation r ≠ Str "not-provided")
    then <["affiliation" := affiliation r]> named else named in
  if bool_decide (ORCID r ≠ Str "not-provided")
  then <["orcid" := ORCID r]> affiliated else affiliated.

(** A workbook whose target sheet lists an author, Gina Ghost, that the
    'Template' sheet lacks. *)
Definition member_row (l f : string) (fa c1 c2 cc sd c3 s : Z) : MemberRow :=
  {| m_last_name := Str l; m_first_name := Str f; m_first_author := Some fa;
     m_contrib1 := Some c1; m_contrib2 := Some c2; m_consortium_coord := Some cc;
     m_scientific_director := Some sd; m_contrib3 := Some c3; m_sum := Some s |}.

Definition ghost_book : Workbook :=
  {| template_sheet := sample_template;
     target_sheet := [ member_row "Smith" "John" 1 0 0 0 0 0 1;
                       member_row "Ghost" "Gina" 0 1 0 0 0 0 1;
                       member_row "Doe" "Ann" 0 1 0 0 0 0 1 ] |}.

(** No submission asked for. *)
Definition plain_args : Args :=
  {| excel_path := "authors.xlsx"; target_sheet_name := "Sheet1";
     output_dir_path := "out"; submission := false;
     access_token_path := None; data_file_paths := None;
     meta_title := None; meta_description := None; references := None |}.

(** ** Passes of the ordering *)

(** The weight of [r] in [c] is positive. *)
Definition weighted (r : OrderRow) (c : Category) : Prop := (0 < o_weight r c)%Z.

#[global] Instance weighted_dec (r : OrderRow) (c : Category) : Decision (weighted r c).
Proof. unfold weighted. apply _. Defined.

(** What a pass asks of a row, besides not being placed yet. *)
Definition eligible (c : Category) (r : OrderRow) : bool :=
  if bool_decide (c ∉ [ScientificDirector; Contrib3]) then
    (0 <? o_weight r c)%Z && (o_weight r ScientificDirector =? 0)%Z
    && (o_weight r Contrib3 =? 0)%Z
  else (0 <? o_weight r c)%Z.

(** The body of the inner loop of the pass of [c]. *)
Definition pass_body (df : frame OrderRow) (c : Category)
  : list string → string → result (list string) :=
  if bool_decide (c ∉ [ScientificDirector; Contrib3]) then ordinary_body df c
  else override_body df c.

(** The keys that the pass of [c] appends to [order], in table order. *)
Definition pass_segment (df : frame OrderRow) (c : Category) (order : list string)
  : list string :=
  (filter (λ p, (p.1 ∉ order) ∧ eligible c p.2) df).*1.

(** The categories whose pass comes before that of [c]. *)
Definition earlier_categories (c : Category) : list Category :=
  match c with
  | FirstAuthor => []
  | Contrib1 => [FirstAuthor]
  | Contrib2 => [FirstAuthor; Contrib1]
  | ConsortiumCoord => [FirstAuthor; Contrib1; Contrib2]
  | ScientificDirector => [FirstAuthor; Contrib1; Contrib2; ConsortiumCoord]
  | Contrib3 =>
      [FirstAuthor; Contrib1; Contrib2; ConsortiumCoord; ScientificDirector]
  end.


(** The four ordinary categories and the two override categories. *)
Definition ordinary (c : Category) : Prop :=
  c ∈ [FirstAuthor; Contrib1; Contrib2; ConsortiumCoord].

Definition override (c : Category) : Prop := c ∈ [ScientificDirector; Contrib3].





(** The filtered rows of a sheet under their index, when the keys can be
    built. *)
Definition order_frame (sheet : list MemberRow) : result (frame OrderRow) :=
  name_index ← order_index (filtered_rows sheet);
  Ok (zip name_index (filtered_rows sheet)).

(** A target sheet of four authors; Lee is a first author and a scientific
    director, and a fifth row has a zero sum. *)
Definition sample_sheet : list MemberRow :=
  [ member_row "Smith" "John" 1 0 0 0 0 0 1;
    member_row "Lee" "Kim" 1 0 0 0 1 0 2;
    member_row "Idle" "Ian" 0 0 0 0 0 0 0;
    member_row "Doe" "Ann" 0 1 0 0 0 0 1;
    member_row "Clayssen" "Quentin" 0 0 1 0 0 1 2 ].

Definition sample_order_frame : frame OrderRow :=
  [ ("SmithJ", fillna (member_row "Smith" "John" 1 0 0 0 0 0 1));
    ("LeeK", fillna (member_row "Lee" "Kim" 1 0 0 0 1 0 2));
    ("DoeA", fillna (member_row "Doe" "Ann" 0 1 0 0 0 0 1));
    ("ClayssenQ", fillna (member_row "Clayssen" "Quentin" 0 0 1 0 0 1 2)) ].



(** ** Submissions *)

(** The upload requests for a list of (path, filename) pairs. *)
Definition upload_requests (bucket_url : JSON) (token : string)
    (files : list (string * string)) : list Request :=
  (λ pf, PutFile bucket_url pf.2 pf.1 token) <$> files.

(** The (path, filename) pairs that [_upload_files_to_deposition] walks. *)
Definition upload_pairs (host : Host) (sv : SubmissionVars) : list (string * string) :=
  zip (data_file_path_list sv) (_prepare_filenames_and_paths host sv).

(** What the script reads from the response to the creation request. *)
Definition deposition_ids (r : Response) : result (JSON * JSON) :=
  j ← response_json r;
  links ← json_item j "links";
  bucket_url ← json_item links "bucket";
  j' ← response_json r;
  deposition_id ← json_item j' "id";
  Ok (bucket_url, deposition_id).

(** What the script reads from the response to the metadata request. *)
Definition deposition_link (r : Response) : result JSON :=
  j ← response_json r; links ← json_item j "links"; json_item links "html".

(** Submission variables with one data file, [a.txt]. *)
Definition sample_submission : SubmissionVars :=
  {| data_file_path_list := ["a.txt"]; sv_meta_title := "A title";
     sv_meta_description := "A description"; access_token := "secret";
     sv_references := [] |}.

(** A string between double quotes. *)
Definition quoted (s : string) : string :=
  String (ascii_of_nat 34) s +:+ String (ascii_of_nat 34) EmptyString.

Definition deposition_text : string :=
  "{" +:+ quoted "id" +:+ ": 7, " +:+ quoted "links" +:+ ": {"
  +:+ quoted "bucket" +:+ ": " +:+ quoted "https://zenodo.org/api/files/b7" +:+ ", "
  +:+ quoted "html" +:+ ": " +:+ quoted "https://zenodo.org/deposit/7" +:+ "}}".

Definition error_text : string :=
  "{" +:+ quoted "message" +:+ ": " +:+ quoted "Internal Server Error" +:+ "}".

Definition deposition_body : JSON :=
  JObj [("id", JNum 7);
        ("links", JObj [("bucket", JStr "https://zenodo.org/api/files/b7");
                        ("html", JStr "https://zenodo.org/deposit/7")])].

(** A service that creates the deposition, then answers every upload with
    status 500 and an error document. *)
Definition failing_upload_server : Server :=
  λ _ req,
    match req with
    | PostDeposition _ => {| status_code := 201; text := deposition_text;
                            json_body := Some deposition_body |}
    | PutFile _ _ _ _ =>
        {| status_code := 500; text := error_text;
           json_body := Some (JObj [("message", JStr "Internal Server Error")]) |}
    | PutMetaData _ _ _ => {| status_code := 200; text := deposition_text;
                             json_body := Some deposition_body |}
    end.

(** The same bodies behind success statuses. *)
Definition healthy_server : Server :=
  λ _ req,
    match req with
    | PostDeposition _ => {| status_code := 201; text := deposition_text;
                            json_body := Some deposition_body |}
    | PutFile _ _ _ _ =>
        {| status_code := 200; text := error_text;
           json_body := Some (JObj [("message", JStr "Internal Server Error")]) |}
    | PutMetaData _ _ _ => {| status_code := 200; text := deposition_text;
                             json_body := Some deposition_body |}
    end.

(** A service that refuses the token: status 401 and an error document. *)
Definition unauthorized_server : Server :=
  λ _ _, {| status_code := 401;
            text := "{" +:+ quoted "message" +:+ ": " +:+ quoted "Unauthorized"
                    +:+ ", " +:+ quoted "status" +:+ ": 401}";
            json_body := Some (JObj [("message", JStr "Unauthorized");
                                     ("status", JNum 401)]) |}.

(** The body of the response is a JSON object that holds 'id' and, under
    'links', an object that holds 'bucket'. *)
Definition has_deposition_ids (r : Response) (bucket_url deposition_id : JSON) : Prop :=
  ∃ fields links,
    json_body r = Some (JObj fields) ∧
    fields_get fields "links" = Ok (JObj links) ∧
    fields_get links "bucket" = Ok bucket_url ∧
    fields_get fields "id" = Ok deposition_id.

(** The body of the response is a JSON object that holds, under 'links',
    an object that holds 'html'. *)
Definition has_deposition_link (r : Response) (link : JSON) : Prop :=
  ∃ fields links,
    json_body r = Some (JObj fields) ∧
    fields_get fields "links" = Ok (JObj links) ∧
    fields_get links "html" = Ok link.

(** The errors of reading the fields of a response: the decode error
    holds the text of the body, the others hold the name of a field or
    nothing; none holds the status. *)
Definition reading_error (r : Response) (e : exn) : Prop :=
  e = JSONDecodeError (text r) ∨ e = TypeError ∨
  e = KeyError "links" ∨ e = KeyError "bucket" ∨ e = KeyError "id" ∨
  e = KeyError "html".

(** Two services whose answers to the creation and to the metadata
    request have the same text and the same JSON body; their statuses,
    and their answers to the uploads, are free. *)
Definition same_bodies_but_uploads (s1 s2 : Server) : Prop :=
  ∀ log req,
    (∀ bucket_url filename path token, req ≠ PutFile bucket_url filename path token) →
    json_body (s1 log req) = json_body (s2 log req) ∧
    text (s1 log req) = text (s2 log req).

(** A response outside the 2xx range. *)
Definition non_success (r : Response) : Prop := ¬ (200 ≤ status_code r < 300)%Z.

(** Every request of the run that was answered with a non-success status
    made the run fail. *)
Definition fails_on_non_success (host : Host) (server : Server)
    (sv : SubmissionVars) (creators : list (gmap string cell)) : Prop :=
  ∀ pre req post,
    (do_zenodo_submission host server sv creators []).2 = pre ++ req :: post →
    non_success (server pre req) →
    ∃ e, (do_zenodo_submission host server sv creators []).1 = Raise e.

(** ** The master table *)

(** The affiliation written for PogoreutzC. *)
Definition Pogoreutz_affiliation : cell :=
  Str "Department of Biology, University of Konstanz, 78457 Konstanz, Germany".

(** The keys that [_make_author_info_df] builds for the rows of the sheet. *)
Definition info_index (template : list InfoRow) : result (list string) :=
  comprehension (λ r, author_key (last_name r) (first_name r)) template.

(** [sample_template] as [_make_author_info_df] returns it. *)
Definition sample_patched_df : frame InfoRow :=
  [ ("SmithJ", info_row "Smith" "John" "J." "Lab1" "0000-0001");
    ("DoeA", info_row "Doe" "Ann" "A." "Lab2" "not-provided");
    ("LeeK", info_row "Lee" "Kim" "K." "Lab1" "0000-0003");
    ("PogoreutzC", {| last_name := NaN; first_name := NaN;
                      first_name_initials := NaN;
                      affiliation := Pogoreutz_affiliation; ORCID := NaN |});
    ("ClayssenQ", Clayssen) ].

(** ** Groups of the author order *)

(** [c] is the first category, in the order of the passes, whose pass
    accepts the row [r]. *)
Definition placement (r : OrderRow) (c : Category) : Prop :=
  eligible c r ∧ Forall (λ c', ¬ eligible c' r) (earlier_categories c).

#[global] Instance placement_dec (r : OrderRow) (c : Category) : Decision (placement r c).
Proof. unfold placement. apply _. Defined.

(** The keys of the rows placed in [c], in table order. *)
Definition category_group (df : frame OrderRow) (c : Category) : list string :=
  (filter (λ p, placement p.2 c) df).*1.

(** Some pass accepts the row: it is weighted in an override category, or
    its override weights are zero and it is weighted in an ordinary one. *)
Definition placeable (r : OrderRow) : Prop :=
  weighted r ScientificDirector ∨ weighted r Contrib3 ∨
  (o_weight r ScientificDirector = 0%Z ∧ o_weight r Contrib3 = 0%Z ∧
   ∃ c, ordinary c ∧ weighted r c).

(** ** The affiliation list in closed form *)

(** The distinct elements of a list, each at its first occurrence. *)
Fixpoint first_seen (l : list cell) : list cell :=
  match l with
  | [] => []
  | x :: l' => x :: filter (λ y, y ≠ x) (first_seen l')
  end.

(** The affiliation cells of the authors of an order, in order. *)
Definition affiliations_of (df : frame InfoRow) (order : list string)
  : result (list cell) :=
  comprehension (λ author, df_at df author affiliation) order.

(** ** Entries of the author strings *)

(** "last name, initials" of an author of the table. *)
Definition author_entry (df : frame InfoRow) (author : string) : string :=
  match df_row df author with
  | Ok r => fmt_cell (last_name r) +:+ ", " +:+ fmt_cell (first_name_initials r)
  | Raise _ => ""
  end.

(** The superscript of a number that has one. *)
Definition superscript_of (n : nat) : string :=
  match _superscript (Z.of_nat n) with
  | Ok s => s
  | Raise _ => ""
  end.

(** The superscripts of the affiliation numbers of an author, joined by
    the modifier comma. *)
Definition author_marks (reg : Registry) (author : string) : string :=
  join "˒" (superscript_of
              <$> defaultdict_get (author_to_affil_num_list_dict reg) author).

(** A workbook whose two sheets hold the same four authors but Clayssen,
    whom the master sheet lacks. *)
Definition sample_book : Workbook :=
  {| template_sheet := sample_template; target_sheet := sample_sheet |}.

(** ** The output files *)



(** A host like [sample_host] whose encoding has no superscript digits: a
    text that holds the superscript one cannot be written. *)
Definition ascii_host : Host :=
  {| isdir := isdir sample_host; isfile := isfile sample_host;
     path_exists := path_exists sample_host; read_lines := read_lines sample_host;
     basename := basename sample_host; open_error := open_error sample_host;
     path_join := path_join sample_host;
     write_text := λ _ text,
       if decide (text = "Smith, J.¹; Doe, A.²; Lee, K.¹; Clayssen, C.³")
       then Some UnicodeEncodeError else None |}.

(** * Properties *)

(** ** Superscripts *)

Lemma string_app_assoc (a b c : string) : (a +:+ b) +:+ c = a +:+ (b +:+ c).
Proof.
  induction a as [|x a IH]; [done |].
  change (String x ((a +:+ b) +:+ c) = String x (a +:+ b +:+ c)).
  by rewrite IH.
Qed.

Lemma string_app_nil_r (a : string) : a +:+ "" = a.
Proof.
  induction a as [|x a IH]; [done |].
  change (String x (a +:+ "") = String x a). by rewrite IH.
Qed.

Lemma uint_digits_lt_10 (d : Decimal.uint) : Forall (λ k, k < 10) (uint_digits d).
Proof. induction d; simpl; constructor; (lia || done). Qed.

Lemma string_of_uint_digits (d : Decimal.uint) :
  NilEmpty.string_of_uint d = string_of_list_ascii (digit_char <$> uint_digits d).
Proof. induction d; simpl; [done | by rewrite IHd ..]. Qed.

Lemma uint_digits_revapp (d d' : Decimal.uint) :
  uint_digits (Decimal.revapp d d') = reverse (uint_digits d) ++ uint_digits d'.
Proof.
  revert d'. induction d; intros d'; simpl; [done | ..];
    rewrite IHd, reverse_cons, <- app_assoc; done.
Qed.

Lemma digits_value_snoc (ds : list nat) (k : nat) :
  digits_value (ds ++ [k]) = (10 * digits_value ds + Z.of_nat k)%Z.
Proof. unfold digits_value. by rewrite foldl_app. Qed.

Lemma digits_value_of_lu (d : Decimal.uint) :
  digits_value (reverse (uint_digits d)) = Z.of_N (Unsigned.of_lu d).
Proof.
  induction d; simpl Unsigned.of_lu; simpl uint_digits; [done | ..];
    rewrite reverse_cons, digits_value_snoc, IHd; lia.
Qed.

Lemma digits_value_to_uint (p : positive) :
  digits_value (uint_digits (Pos.to_uint p)) = Z.pos p.
Proof.
  pose proof (Unsigned.of_to p) as Hp.
  rewrite Unsigned.of_uint_alt in Hp.
  pose proof (digits_value_of_lu (Decimal.rev (Pos.to_uint p))) as Hv.
  unfold Decimal.rev in Hv at 1. rewrite uint_digits_revapp in Hv.
  simpl in Hv. rewrite app_nil_r, reverse_involutive, Hp in Hv. done.
Qed.

Lemma str_int_pos (p : positive) :
  str_int (Z.pos p)
  = string_of_list_ascii (digit_char <$> uint_digits (Pos.to_uint p)).
Proof.
  unfold str_int. simpl. rewrite <- string_of_uint_digits.
  pose proof (Unsigned.to_uint_nonnil p) as Hn.
  unfold NilZero.string_of_uint. by destruct (Pos.to_uint p).
Qed.

Lemma sup_map_digit (k : nat) :
  k < 10 → char_dict_get sup_map (digit_char k) = Ok (superscript_digit k).
Proof. intros Hk. do 10 (destruct k as [|k]; [reflexivity |]). lia. Qed.

Lemma for_each_cons {S A : Type} (body : S → A → result S) (x : A) (xs : list A)
    (s : S) :
  for_each body (x :: xs) s = s' ← body s x; for_each body xs s'.
Proof. reflexivity. Qed.

Lemma superscript_loop (ds : list nat) (acc : string) :
  Forall (λ k, k < 10) ds →
  for_each (λ sup_num c, s ← char_dict_get sup_map c; Ok (sup_num +:+ s))
           (digit_char <$> ds) acc
  = Ok (acc +:+ superscript_digits ds).
Proof.
  intros Hds. revert acc.
  induction Hds as [|k ds Hk _ IH]; intros acc.
  - simpl. by rewrite string_app_nil_r.
  - rewrite fmap_cons, for_each_cons, sup_map_digit by done.
    cbn [mbind result_bind]. rewrite IH, string_app_assoc. done.
Qed.

(** C8. [_superscript] is a digit-wise map on positive integers: the
    decimal rendering of [n] consists of ASCII digits only, and the result
    is the concatenation, in order, of the superscript digit of each of
    them; no character of the rendering is left without an image, so no
    error is raised. *)
Theorem superscript_digitwise (n : Z) :
  (0 < n)%Z →
  (∃ ds : list nat,
     Forall (λ d, d < 10) ds ∧
     digits_value ds = n ∧
     str_int n = string_of_list_ascii (digit_char <$> ds) ∧
     _superscript n = Ok (superscript_digits ds)) ∧
  _superscript 12 = Ok "¹²" ∧
  _superscript 7 = Ok "⁷".
Proof.
  intros Hn. split; [| split; reflexivity].
  destruct n as [|p|p]; try lia.
  exists (uint_digits (Pos.to_uint p)).
  split; [apply uint_digits_lt_10 |].
  split; [apply digits_value_to_uint |].
  split; [apply str_int_pos |].
  unfold _superscript. cbv zeta. rewrite str_int_pos.
  rewrite list_ascii_of_string_of_list_ascii.
  rewrite superscript_loop by apply uint_digits_lt_10. done.
Qed.

Lemma superscript_digitwise_witness :
  (0 < 2024)%Z ∧
  (∃ ds : list nat,
     Forall (λ d, d < 10) ds ∧
     digits_value ds = 2024%Z ∧
     str_int 2024 = string_of_list_ascii (digit_char <$> ds) ∧
     _superscript 2024 = Ok (superscript_digits ds)) ∧
  _superscript 12 = Ok "¹²" ∧
  _superscript 7 = Ok "⁷".
Proof. split; [lia | apply (superscript_digitwise 2024); lia]. Defined.

Example superscript_12 : _superscript 12 = Ok "¹²".
Proof. reflexivity. Qed.

Example superscript_7 : _superscript 7 = Ok "⁷".
Proof. reflexivity. Qed.

Example superscript_no_sign : _superscript (-3) = Raise (KeyError "-").
Proof. reflexivity. Qed.

(** ** The check of the data files *)

Lemma split_comma_nonempty (s : string) : split_comma s ≠ [].
Proof.
  destruct s as [|c s]; simpl; [done |].
  destruct (Ascii.eqb c ","); [done |]. by destruct (split_comma s).
Qed.






(** ** The affiliation registry *)

Lemma for_each_app {S A : Type} (body : S → A → result S) (xs ys : list A) (s : S) :
  for_each body (xs ++ ys) s = s' ← for_each body xs s; for_each body ys s'.
Proof.
  revert s. induction xs as [|x xs IH]; intros s; simpl; [done |].
  destruct (body s x); simpl; [apply IH | done].
Qed.

Lemma bind_Ok_inv {A B : Type} (m : result A) (f : A → result B) (b : B) :
  m ≫= f = Ok b → ∃ a, m = Ok a ∧ f a = Ok b.
Proof. destruct m as [a|e]; simpl; [eauto | done]. Qed.

Lemma empty_registry_wf : registry_wf empty_registry.
Proof.
  split; simpl.
  - constructor.
  - intros s n. rewrite lookup_empty. split; [done |]. by intros (i & _ & ?).
  - intros n s. rewrite lookup_empty. split; [done |]. by intros (i & _ & ?).
Qed.

Lemma affil_string_body_new (author : string) (st : Registry) (s : cell) :
  s ∉ affiliation_list st →
  affil_string_body author st s = Ok (registry_new author st s).
Proof.
  intros Hnew. unfold affil_string_body, registry_new.
  rewrite bool_decide_eq_true_2 by done.
  rewrite length_app. simpl. by rewrite Nat.add_1_r.
Qed.

Lemma affil_string_body_seen (author : string) (st : Registry) (s : cell) (n : nat) :
  s ∈ affiliation_list st →
  affil_str_to_affil_num_dict st !! s = Some n →
  affil_string_body author st s = Ok (registry_seen author st n).
Proof.
  intros Hseen Hn. unfold affil_string_body, registry_seen, dict_get.
  rewrite bool_decide_eq_false_2 by (intros Hnot; by apply Hnot).
  by rewrite Hn.
Qed.

Lemma registry_wf_seen_number (st : Registry) (s : cell) :
  registry_wf st → s ∈ affiliation_list st →
  ∃ n, affil_str_to_affil_num_dict st !! s = Some n.
Proof.
  intros Hwf (i & Hi)%list_elem_of_lookup_1.
  exists (S i). apply (wf_str_to_num _ Hwf). eauto.
Qed.

Lemma registry_new_wf (author : string) (st : Registry) (s : cell) :
  registry_wf st → s ∉ affiliation_list st → registry_wf (registry_new author st s).
Proof.
  intros Hwf Hnew. split; simpl.
  - apply NoDup_app. split; [apply (wf_nodup _ Hwf) |].
    split; [| apply NoDup_singleton].
    intros x Hx ->%list_elem_of_singleton. done.
  - intros t n. destruct (decide (s = t)) as [<- | Hne].
    + rewrite lookup_insert_eq. split.
      * intros [= <-]. exists (length (affiliation_list st)).
        split; [done |]. by rewrite lookup_app_r, Nat.sub_diag.
      * intros (i & -> & Hi). f_equal. f_equal.
        destruct (decide (i < length (affiliation_list st))) as [Hlt | Hge].
        -- rewrite lookup_app_l in Hi by done.
           exfalso. apply Hnew. by eapply list_elem_of_lookup_2.
        -- apply lookup_lt_Some in Hi. rewrite length_app in Hi. simpl in Hi. lia.
    + rewrite lookup_insert_ne by done. rewrite (wf_str_to_num _ Hwf).
      split; intros (i & -> & Hi); exists i; (split; [done |]).
      * rewrite lookup_app_l; [done |]. by eapply lookup_lt_Some.
      * destruct (decide (i < length (affiliation_list st))) as [Hlt | Hge].
        -- by rewrite lookup_app_l in Hi.
        -- rewrite lookup_app_r in Hi by lia.
           apply list_lookup_singleton_Some in Hi as [_ ?]. done.
  - intros n t. destruct (decide (S (length (affiliation_list st)) = n)) as [<- | Hne].
    + rewrite lookup_insert_eq. split.
      * intros [= <-]. exists (length (affiliation_list st)).
        split; [done |]. by rewrite lookup_app_r, Nat.sub_diag.
      * intros (i & [= <-] & Hi).
        rewrite lookup_app_r, Nat.sub_diag in Hi by done. simpl in Hi. congruence.
    + rewrite lookup_insert_ne by done. rewrite (wf_num_to_str _ Hwf).
      split; intros (i & -> & Hi); exists i; (split; [done |]).
      * rewrite lookup_app_l; [done |]. by eapply lookup_lt_Some.
      * destruct (decide (i < length (affiliation_list st))) as [Hlt | Hge].
        -- by rewrite lookup_app_l in Hi.
        -- apply lookup_lt_Some in Hi. rewrite length_app in Hi. simpl in Hi.
           exfalso. apply Hne. f_equal. lia.
Qed.

Lemma registry_seen_wf (author : string) (st : Registry) (n : nat) :
  registry_wf st → registry_wf (registry_seen author st n).
Proof. intros [H1 H2 H3]. by split. Qed.

Lemma df_row_Ok_elem {R : Type} (df : frame R) (label : string) (r : R) :
  df_row df label = Ok r → (label, r) ∈ df.
Proof.
  induction df as [|[k r'] df IH]; simpl; [done |].
  destruct (String.eqb k label) eqn:Hk.
  - apply String.eqb_eq in Hk as ->. intros [= ->]. left.
  - intros Hr. right. by apply IH.
Qed.

Lemma df_row_Raise {R : Type} (df : frame R) (label : string) (e : exn) :
  df_row df label = Raise e → e = KeyError label ∧ label ∉ index df.
Proof.
  unfold index. induction df as [|[k r'] df IH]; simpl.
  - intros [= <-]. split; [done |]. apply not_elem_of_nil.
  - destruct (String.eqb k label) eqn:Hk; [done |].
    apply String.eqb_neq in Hk. intros [He Hnot]%IH. split; [done |].
    rewrite not_elem_of_cons. done.
Qed.

Lemma df_row_index {R : Type} (df : frame R) (label : string) :
  label ∈ index df → ∃ r, df_row df label = Ok r.
Proof.
  intros Hin. destruct (df_row df label) as [r|e] eqn:Hrow; [eauto |].
  by apply df_row_Raise in Hrow as [_ ?].
Qed.

Lemma df_at_Ok_inv {R V : Type} (df : frame R) (label : string) (col : R → V) (v : V) :
  df_at df label col = Ok v → ∃ r, df_row df label = Ok r ∧ v = col r.
Proof.
  unfold df_at. intros (r & Hr & [= <-])%bind_Ok_inv. eauto.
Qed.

Lemma affil_author_body_found (df : frame InfoRow) (st : Registry)
    (author : string) (s : cell) :
  df_at df author affiliation = Ok s →
  affil_author_body df st author = affil_string_body author st s.
Proof.
  intros Hs. unfold affil_author_body, author_affil_list. rewrite Hs. simpl.
  by destruct (affil_string_body author st s).
Qed.

Lemma affil_author_body_missing (df : frame InfoRow) (st : Registry) (author : string) :
  author ∉ index df →
  affil_author_body df st author
  = Raise (RuntimeWarning (no_affiliation_message author)).
Proof.
  intros Hmiss. unfold affil_author_body, author_affil_list, df_at.
  destruct (df_row df author) as [r|e] eqn:Hrow.
  - exfalso. apply Hmiss. apply df_row_Ok_elem in Hrow.
    unfold index. apply list_elem_of_fmap. by exists (author, r).
  - by apply df_row_Raise in Hrow as [-> _].
Qed.

Lemma affil_author_body_Ok_found (df : frame InfoRow) (st st' : Registry)
    (author : string) :
  affil_author_body df st author = Ok st' →
  ∃ s, df_at df author affiliation = Ok s.
Proof.
  unfold affil_author_body, author_affil_list.
  destruct (df_at df author affiliation) as [s|e]; [eauto |].
  by destruct e.
Qed.

(** What one author does to a well-formed registry. *)
Lemma affil_author_body_spec (df : frame InfoRow) (st st' : Registry)
    (author : string) :
  registry_wf st →
  affil_author_body df st author = Ok st' →
  ∃ s n,
    df_at df author affiliation = Ok s ∧
    registry_wf st' ∧
    affil_str_to_affil_num_dict st' !! s = Some n ∧
    author_to_affil_num_list_dict st'
      = defaultdict_append (author_to_affil_num_list_dict st) author n ∧
    (((s ∉ affiliation_list st) ∧ n = S (length (affiliation_list st)) ∧
      st' = registry_new author st s) ∨
     (s ∈ affiliation_list st ∧ affil_str_to_affil_num_dict st !! s = Some n ∧
      st' = registry_seen author st n)).
Proof.
  intros Hwf Hbody.
  destruct (affil_author_body_Ok_found _ _ _ _ Hbody) as [s Hs].
  rewrite (affil_author_body_found _ _ _ _ Hs) in Hbody.
  destruct (decide (s ∈ affiliation_list st)) as [Hseen | Hnew].
  - destruct (registry_wf_seen_number _ _ Hwf Hseen) as [n Hn].
    rewrite (affil_string_body_seen _ _ _ _ Hseen Hn) in Hbody.
    injection Hbody as <-. exists s, n.
    split; [done |]. split; [by apply registry_seen_wf |].
    split; [done |]. split; [done |]. right. done.
  - rewrite (affil_string_body_new _ _ _ Hnew) in Hbody.
    injection Hbody as <-. exists s, (S (length (affiliation_list st))).
    split; [done |]. split; [by apply registry_new_wf |].
    split; [simpl; apply lookup_insert_eq |]. split; [done |]. left. done.
Qed.

(** A registry only grows: strings keep their place and their number. *)
Lemma affil_author_body_grows (df : frame InfoRow) (st st' : Registry)
    (author : string) :
  registry_wf st →
  affil_author_body df st author = Ok st' →
  (affiliation_list st `prefix_of` affiliation_list st') ∧
  (∀ s n, affil_str_to_affil_num_dict st !! s = Some n →
          affil_str_to_affil_num_dict st' !! s = Some n) ∧
  (∀ b, b ≠ author →
        author_to_affil_num_list_dict st' !! b = author_to_affil_num_list_dict st !! b).
Proof.
  intros Hwf Hbody.
  destruct (affil_author_body_spec _ _ _ _ Hwf Hbody)
    as (s & n & Hs & Hwf' & Hn & Hdict & Hcase).
  split; [| split].
  - destruct Hcase as [(_ & _ & ->) | (_ & _ & ->)]; simpl.
    + by apply prefix_app_r.
    + done.
  - intros t m Ht. destruct Hcase as [(Hnew & _ & ->) | (_ & _ & ->)]; simpl; [| done].
    rewrite lookup_insert_ne; [done |]. intros <-.
    apply (wf_str_to_num _ Hwf) in Ht as (i & _ & Hi).
    apply Hnew. by eapply list_elem_of_lookup_2.
  - intros b Hb. rewrite Hdict. unfold defaultdict_append.
    by rewrite lookup_insert_ne.
Qed.

(** The invariant of the loop over the authors. *)
Lemma affil_loop_invariant (df : frame InfoRow) (order : list string)
    (st st' : Registry) :
  registry_wf st →
  for_each (affil_author_body df) order st = Ok st' →
  registry_wf st' ∧
  (affiliation_list st `prefix_of` affiliation_list st') ∧
  (∀ s n, affil_str_to_affil_num_dict st !! s = Some n →
          affil_str_to_affil_num_dict st' !! s = Some n) ∧
  (∀ b, b ∉ order →
        author_to_affil_num_list_dict st' !! b = author_to_affil_num_list_dict st !! b) ∧
  (∀ t, t ∈ affiliation_list st' ↔
        t ∈ affiliation_list st ∨ ∃ b, b ∈ order ∧ df_at df b affiliation = Ok t).
Proof.
  revert st. induction order as [|a order IH]; intros st Hwf Hrun.
  - injection Hrun as <-.
    split; [done |]. split; [done |]. split; [done |]. split; [done |].
    intros t. split; [by left |].
    intros [? | (b & Hb & _)]; [done | by apply not_elem_of_nil in Hb].
  - rewrite for_each_cons in Hrun.
    apply bind_Ok_inv in Hrun as (st1 & Hbody & Hrest).
    destruct (affil_author_body_spec _ _ _ _ Hwf Hbody)
      as (s & n & Hs & Hwf1 & Hn & Hdict & Hcase).
    destruct (affil_author_body_grows _ _ _ _ Hwf Hbody) as (Hpre1 & Hnum1 & Hfr1).
    destruct (IH st1 Hwf1 Hrest) as (Hwf' & Hpre & Hnum & Hfr & Hmem).
    split; [done |]. split; [by etrans |]. split; [by auto |]. split.
    + intros b [Hba Hb]%not_elem_of_cons. rewrite Hfr by done. by apply Hfr1.
    + intros t. rewrite Hmem. split.
      * intros [Ht | (b & Hb & Hbt)].
        -- destruct Hcase as [(_ & _ & ->) | (_ & _ & ->)]; simpl in Ht.
           ++ apply elem_of_app in Ht as [Ht | ->%list_elem_of_singleton]; [by left |].
              right. exists a. split; [left | done].
           ++ by left.
        -- right. exists b. split; [by right | done].
      * intros [Ht | (b & [-> | Hb]%elem_of_cons & Hbt)].
        -- left. by eapply elem_of_prefix.
        -- left. rewrite Hs in Hbt. injection Hbt as <-.
           apply list_elem_of_lookup.
           apply (wf_str_to_num _ Hwf1) in Hn as (i & _ & Hi). eauto.
        -- right. eauto.
Qed.

Lemma make_affiliations_dicts_wf (df : frame InfoRow) (order : list string)
    (reg : Registry) :
  _make_affiliations_dicts df order = Ok reg → registry_wf reg.
Proof.
  intros Hrun. by apply (affil_loop_invariant df order empty_registry reg
                           empty_registry_wf) in Hrun as [? _].
Qed.

(** An author the table lacks stops the loop at the first such author. *)
Lemma make_affiliations_dicts_missing (df : frame InfoRow) (order : list string)
    (st : Registry) :
  registry_wf st →
  (∃ author, author ∈ order ∧ author ∉ index df) →
  ∃ author, author ∈ order ∧ (author ∉ index df) ∧
    for_each (affil_author_body df) order st
    = Raise (RuntimeWarning (no_affiliation_message author)).
Proof.
  revert st. induction order as [|a order IH]; intros st Hwf (x & Hx & Hmiss).
  - by apply not_elem_of_nil in Hx.
  - rewrite for_each_cons.
    destruct (decide (a ∈ index df)) as [Hin | Hnot].
    + destruct (affil_author_body df st a) as [st1|e] eqn:Hbody.
      * apply elem_of_cons in Hx as [-> | Hx]; [done |].
        destruct (affil_author_body_spec _ _ _ _ Hwf Hbody) as (_ & _ & _ & Hwf1 & _).
        destruct (IH st1 Hwf1) as (y & Hy & Hymiss & Hrun); [by eauto |].
        exists y. split; [by right |]. done.
      * exfalso. apply df_row_index in Hin as [r Hr].
        assert (df_at df a affiliation = Ok (affiliation r)) as Hat.
        { unfold df_at. by rewrite Hr. }
        rewrite (affil_author_body_found _ _ _ _ Hat) in Hbody.
        destruct (decide (affiliation r ∈ affiliation_list st)) as [Hseen | Hnew].
        -- destruct (registry_wf_seen_number _ _ Hwf Hseen) as [n Hn].
           by rewrite (affil_string_body_seen _ _ _ _ Hseen Hn) in Hbody.
        -- by rewrite (affil_string_body_new _ _ _ Hnew) in Hbody.
    + exists a. split; [left |]. split; [done |].
      by rewrite affil_author_body_missing.
Qed.

Example sample_registry_built :
  _make_affiliations_dicts sample_df sample_order = Ok sample_registry.
Proof. vm_compute. reflexivity. Qed.

Lemma defaultdict_get_append `{Countable K} {V : Type} (d : gmap K (list V))
    (k : K) (v : V) :
  defaultdict_get (defaultdict_append d k v) k = defaultdict_get d k ++ [v].
Proof. unfold defaultdict_append, defaultdict_get at 1. by rewrite lookup_insert_eq. Qed.

(** C4. Numbers follow the traversal of the author order.  Split the order
    at any author [a] with affiliation string [s]; [reg_pre] is the registry
    built from the authors before [a], whose list holds, once each, the
    strings seen so far.  If [s] is not among them it is appended and gets
    the next integer, one more than the count of strings seen (so 1 for the
    very first); if it is, [a] re-uses the number [s] already has and nothing
    is appended.  Either way that number is the one the final registry keeps
    for [s], in both directions, and it is appended to the numbers of [a]. *)
Theorem affiliation_numbers_first_seen (df : frame InfoRow)
    (pre : list string) (a : string) (post : list string) (reg : Registry) :
  _make_affiliations_dicts df (pre ++ a :: post) = Ok reg →
  ∃ (reg_pre reg_a : Registry) (s : cell) (n : nat),
    _make_affiliations_dicts df pre = Ok reg_pre ∧
    _make_affiliations_dicts df (pre ++ [a]) = Ok reg_a ∧
    df_at df a affiliation = Ok s ∧
    NoDup (affiliation_list reg_pre) ∧
    (∀ t, t ∈ affiliation_list reg_pre
          ↔ ∃ b, b ∈ pre ∧ df_at df b affiliation = Ok t) ∧
    (pre = [] → n = 1) ∧
    ((s ∉ affiliation_list reg_pre) →
       n = S (length (affiliation_list reg_pre)) ∧
       affiliation_list reg_a = affiliation_list reg_pre ++ [s]) ∧
    (s ∈ affiliation_list reg_pre →
       affil_str_to_affil_num_dict reg_pre !! s = Some n ∧
       affiliation_list reg_a = affiliation_list reg_pre) ∧
    affil_str_to_affil_num_dict reg_a !! s = Some n ∧
    affil_str_to_affil_num_dict reg !! s = Some n ∧
    affil_num_to_affil_str_dict reg !! n = Some s ∧
    defaultdict_get (author_to_affil_num_list_dict reg_a) a
      = defaultdict_get (author_to_affil_num_list_dict reg_pre) a ++ [n] ∧
    ((a ∉ post) →
       author_to_affil_num_list_dict reg !! a
       = author_to_affil_num_list_dict reg_a !! a).
Proof.
  unfold _make_affiliations_dicts. intros Hrun.
  rewrite for_each_app in Hrun.
  apply bind_Ok_inv in Hrun as (reg_pre & Hpre & Hrun).
  rewrite for_each_cons in Hrun.
  apply bind_Ok_inv in Hrun as (reg_a & Hbody & Hpost).
  destruct (affil_loop_invariant _ _ _ _ empty_registry_wf Hpre)
    as (Hwf_pre & _ & _ & _ & Hmem_pre).
  destruct (affil_author_body_spec _ _ _ _ Hwf_pre Hbody)
    as (s & n & Hs & Hwf_a & Hn & Hdict & Hcase).
  destruct (affil_loop_invariant _ _ _ _ Hwf_a Hpost)
    as (Hwf & _ & Hkeep & Hframe & _).
  exists reg_pre, reg_a, s, n.
  split; [done |].
  split; [by rewrite for_each_app, Hpre; simpl; rewrite Hbody |].
  split; [done |].
  split; [apply (wf_nodup _ Hwf_pre) |].
  split.
  { intros t. rewrite Hmem_pre. simpl. split.
    - intros [Ht | ?]; [by apply not_elem_of_nil in Ht | done].
    - by right. }
  split.
  { intros ->. injection Hpre as <-.
    destruct Hcase as [(_ & -> & _) | (Hin & _)]; [done |].
    by apply not_elem_of_nil in Hin. }
  split.
  { intros Hnew. destruct Hcase as [(_ & -> & ->) | (Hin & _)]; done. }
  split.
  { intros Hseen. destruct Hcase as [(Hnew & _) | (_ & Hnum & ->)]; done. }
  split; [done |].
  split; [by apply Hkeep |].
  split.
  { apply (wf_num_to_str _ Hwf). apply (wf_str_to_num _ Hwf). by apply Hkeep. }
  split; [by rewrite Hdict, defaultdict_get_append |].
  apply Hframe.
Qed.

Lemma affiliation_numbers_first_seen_witness :
  ∃ (reg_pre reg_a : Registry) (s : cell) (n : nat),
    _make_affiliations_dicts sample_df ["SmithJ"; "DoeA"] = Ok reg_pre ∧
    _make_affiliations_dicts sample_df (["SmithJ"; "DoeA"] ++ ["LeeK"]) = Ok reg_a ∧
    df_at sample_df "LeeK" affiliation = Ok s ∧
    NoDup (affiliation_list reg_pre) ∧
    (∀ t, t ∈ affiliation_list reg_pre
          ↔ ∃ b, b ∈ ["SmithJ"; "DoeA"] ∧ df_at sample_df b affiliation = Ok t) ∧
    (["SmithJ"; "DoeA"] = [] → n = 1) ∧
    ((s ∉ affiliation_list reg_pre) →
       n = S (length (affiliation_list reg_pre)) ∧
       affiliation_list reg_a = affiliation_list reg_pre ++ [s]) ∧
    (s ∈ affiliation_list reg_pre →
       affil_str_to_affil_num_dict reg_pre !! s = Some n ∧
       affiliation_list reg_a = affiliation_list reg_pre) ∧
    affil_str_to_affil_num_dict reg_a !! s = Some n ∧
    affil_str_to_affil_num_dict sample_registry !! s = Some n ∧
    affil_num_to_affil_str_dict sample_registry !! n = Some s ∧
    defaultdict_get (author_to_affil_num_list_dict reg_a) "LeeK"
      = defaultdict_get (author_to_affil_num_list_dict reg_pre) "LeeK" ++ [n] ∧
    (("LeeK" ∉ ["ClayssenQ"]) →
       author_to_affil_num_list_dict sample_registry !! "LeeK"
       = author_to_affil_num_list_dict reg_a !! "LeeK").
Proof.
  apply (affiliation_numbers_first_seen sample_df ["SmithJ"; "DoeA"] "LeeK"
           ["ClayssenQ"] sample_registry).
  vm_compute. reflexivity.
Defined.

(** The example of the specification: Lab1, Lab2, then Lab1 again. *)
Example lab1_is_reused :
  ∃ reg, _make_affiliations_dicts sample_df ["SmithJ"; "DoeA"; "LeeK"] = Ok reg ∧
         affiliation_list reg = [Str "Lab1"; Str "Lab2"] ∧
         author_to_affil_num_list_dict reg !! "SmithJ" = Some [1] ∧
         author_to_affil_num_list_dict reg !! "DoeA" = Some [2] ∧
         author_to_affil_num_list_dict reg !! "LeeK" = Some [1].
Proof. eexists. split; [vm_compute; reflexivity |]. vm_compute. done. Qed.

(** C7. Number to string to number is the identity on
    [1 .. len(affiliation_list)]: every such number has a string in
    [affil_num_to_affil_str_dict], the string at that place of the list, and
    [affil_str_to_affil_num_dict] maps that string back to the number. *)
Theorem affiliation_round_trip (df : frame InfoRow) (order : list string)
    (reg : Registry) (n : nat) :
  _make_affiliations_dicts df order = Ok reg →
  1 ≤ n ≤ length (affiliation_list reg) →
  ∃ s : cell,
    affil_num_to_affil_str_dict reg !! n = Some s ∧
    affiliation_list reg !! (n - 1) = Some s ∧
    affil_str_to_affil_num_dict reg !! s = Some n.
Proof.
  intros Hwf%make_affiliations_dicts_wf [Hlo Hhi].
  destruct (lookup_lt_is_Some_2 (affiliation_list reg) (n - 1)) as [s Hs]; [lia |].
  exists s.
  assert (∃ i, n = S i ∧ affiliation_list reg !! i = Some s) as Hi.
  { exists (n - 1). split; [lia | done]. }
  split; [by apply (wf_num_to_str _ Hwf) |].
  split; [done |]. by apply (wf_str_to_num _ Hwf).
Qed.

Lemma affiliation_round_trip_witness :
  ∃ s : cell,
    affil_num_to_affil_str_dict sample_registry !! 2 = Some s ∧
    affiliation_list sample_registry !! (2 - 1) = Some s ∧
    affil_str_to_affil_num_dict sample_registry !! s = Some 2.
Proof.
  apply (affiliation_round_trip sample_df sample_order sample_registry 2).
  - vm_compute. reflexivity.
  - simpl. lia.
Defined.

(** C3. A key of the author order that the master table lacks stops the
    construction of the registry: the [KeyError] of the lookup is turned
    into a raised [RuntimeWarning], no registry is returned, the authors
    after it are not numbered, and the run ends with that exception. *)
Theorem missing_affiliation_aborts :
  _make_author_order (target_sheet ghost_book) = Ok ["SmithJ"; "GhostG"; "DoeA"] ∧
  (∃ df, _make_author_info_df (template_sheet ghost_book) = Ok df ∧
         df_at df "GhostG" affiliation = Raise (KeyError "GhostG") ∧
         _make_affiliations_dicts df ["SmithJ"; "GhostG"; "DoeA"]
         = Raise (RuntimeWarning (no_affiliation_message "GhostG"))) ∧
  run sample_host ghost_book idle_server plain_args
  = (Raise (RuntimeWarning (no_affiliation_message "GhostG")), []).
Proof.
  split; [vm_compute; reflexivity |]. split.
  - eexists. split; [vm_compute; reflexivity |]. split; vm_compute; reflexivity.
  - vm_compute. reflexivity.
Qed.

Lemma defaultdict_get_append_ne `{Countable K} {V : Type} (d : gmap K (list V))
    (k k' : K) (v : V) :
  k ≠ k' → defaultdict_get (defaultdict_append d k v) k' = defaultdict_get d k'.
Proof.
  intros Hne. unfold defaultdict_append, defaultdict_get at 1.
  by rewrite lookup_insert_ne.
Qed.

Lemma author_numbers_kept (df : frame InfoRow) (order : list string)
    (st st' : Registry) (b : string) (m : nat) :
  registry_wf st →
  for_each (affil_author_body df) order st = Ok st' →
  m ∈ defaultdict_get (author_to_affil_num_list_dict st) b →
  m ∈ defaultdict_get (author_to_affil_num_list_dict st') b.
Proof.
  revert st. induction order as [|a order IH]; intros st Hwf Hrun Hm.
  - by injection Hrun as <-.
  - rewrite for_each_cons in Hrun.
    apply bind_Ok_inv in Hrun as (st1 & Hbody & Hrest).
    destruct (affil_author_body_spec _ _ _ _ Hwf Hbody)
      as (s & n & _ & Hwf1 & _ & Hdict & _).
    apply (IH st1 Hwf1 Hrest). rewrite Hdict.
    destruct (decide (a = b)) as [-> | Hne].
    + rewrite defaultdict_get_append. apply elem_of_app. by left.
    + by rewrite defaultdict_get_append_ne.
Qed.

(** Every author of the order has the number of their string among their
    numbers. *)
Lemma author_number_recorded (df : frame InfoRow) (order : list string)
    (st st' : Registry) (a : string) (s : cell) :
  registry_wf st →
  for_each (affil_author_body df) order st = Ok st' →
  a ∈ order → df_at df a affiliation = Ok s →
  ∃ n, affil_str_to_affil_num_dict st' !! s = Some n ∧
       n ∈ defaultdict_get (author_to_affil_num_list_dict st') a.
Proof.
  revert st. induction order as [|b order IH]; intros st Hwf Hrun Ha Hs.
  - by apply not_elem_of_nil in Ha.
  - rewrite for_each_cons in Hrun.
    apply bind_Ok_inv in Hrun as (st1 & Hbody & Hrest).
    destruct (affil_author_body_spec _ _ _ _ Hwf Hbody)
      as (t & n & Ht & Hwf1 & Hn & Hdict & _).
    destruct (decide (a ∈ order)) as [Hin | Hnot]; [by apply (IH st1) |].
    apply elem_of_cons in Ha as [-> | ?]; [| done].
    rewrite Hs in Ht. injection Ht as <-.
    destruct (affil_loop_invariant _ _ _ _ Hwf1 Hrest) as (_ & _ & Hkeep & _).
    exists n. split; [by apply Hkeep |].
    apply (author_numbers_kept _ _ _ _ _ _ Hwf1 Hrest).
    rewrite Hdict, defaultdict_get_append. apply elem_of_app. right. left.
Qed.

Lemma comprehension_fmap {A B : Type} (f : A → result B) (g : A → B) (xs : list A) :
  (∀ x, x ∈ xs → f x = Ok (g x)) → comprehension f xs = Ok (g <$> xs).
Proof.
  induction xs as [|x xs IH]; intros Hf; simpl; [done |].
  rewrite Hf by left. simpl. rewrite IH; [done |].
  intros y Hy. apply Hf. by right.
Qed.

Lemma comprehension_Ok_lookup {A B : Type} (f : A → result B) (xs : list A)
    (ys : list B) (i : nat) (x : A) :
  comprehension f xs = Ok ys → xs !! i = Some x →
  ∃ y, ys !! i = Some y ∧ f x = Ok y.
Proof.
  revert ys i. induction xs as [|x' xs IH]; intros ys i Hc Hi; [done |].
  simpl in Hc. apply bind_Ok_inv in Hc as (y & Hy & Hc).
  apply bind_Ok_inv in Hc as (ys' & Hys & [= <-]).
  destruct i as [|i]; simpl in *.
  - injection Hi as ->. eauto.
  - by apply IH.
Qed.

(** The entries of the affiliation strings are the strings of the list,
    each behind its number. *)
Lemma affiliation_entries_imap (reg : Registry) :
  registry_wf reg →
  affiliation_entries reg = Ok (imap affiliation_entry (affiliation_list reg)).
Proof.
  intros Hwf. unfold affiliation_entries.
  rewrite (comprehension_fmap _
    (λ i, affiliation_entry i (default NaN (affiliation_list reg !! i)))).
  - f_equal. apply list_eq. intros i.
    rewrite list_lookup_fmap, list_lookup_imap.
    destruct (affiliation_list reg !! i) as [s|] eqn:Hi.
    + rewrite lookup_seq_lt by (by eapply lookup_lt_Some). simpl. by rewrite Hi.
    + rewrite lookup_seq_ge; [done |]. by apply lookup_ge_None.
  - intros i [_ Hi]%elem_of_seq. simpl in Hi.
    destruct (lookup_lt_is_Some_2 (affiliation_list reg) i Hi) as [s Hs].
    unfold dict_get.
    assert (affil_num_to_affil_str_dict reg !! (i + 1) = Some s) as ->.
    { apply (wf_num_to_str _ Hwf). exists i. split; [lia | done]. }
    simpl. by rewrite Hs.
Qed.

Lemma creator_dict_of_row (df : frame InfoRow) (author : string) (r : InfoRow) :
  df_row df author = Ok r → creator_dict df author = Ok (creator_of_row r).
Proof.
  intros Hr. unfold creator_dict, creator_of_row, df_at. rewrite Hr. simpl.
  destruct (bool_decide (affiliation r ≠ Str "not-provided")); simpl;
    destruct (bool_decide (ORCID r ≠ Str "not-provided")); done.
Qed.

Lemma creator_of_row_affiliation (r : InfoRow) :
  creator_of_row r !! "affiliation"
  = if decide (affiliation r = Str "not-provided") then None
    else Some (affiliation r).
Proof.
  unfold creator_of_row.
  destruct (decide (affiliation r = Str "not-provided")) as [He | Hne].
  - rewrite (bool_decide_eq_false_2 (affiliation r ≠ _)) by (intros Hn; by apply Hn).
    destruct (bool_decide (ORCID r ≠ Str "not-provided"));
      rewrite ?lookup_insert_ne by done; by rewrite lookup_empty.
  - rewrite (bool_decide_eq_true_2 (affiliation r ≠ _)) by done.
    destruct (bool_decide (ORCID r ≠ Str "not-provided"));
      rewrite ?(lookup_insert_ne _ "orcid") by done; by rewrite lookup_insert_eq.
Qed.

Lemma df_row_set_loc (df : frame InfoRow) (label : string) (row : InfoRow) :
  df_row (set_loc df label row) label = Ok row.
Proof.
  induction df as [|[k r] df IH]; simpl.
  - by rewrite String.eqb_refl.
  - destruct (String.eqb k label) eqn:Hk; simpl; by rewrite Hk.
Qed.

(** The author appended by hand carries the sentinel, whatever the sheet. *)
Lemma Clayssen_not_provided (template : list InfoRow) (df : frame InfoRow) :
  _make_author_info_df template = Ok df →
  df_at df "ClayssenQ" affiliation = Ok (Str "not-provided").
Proof.
  unfold _make_author_info_df.
  intros (name_index & _ & Hrest)%bind_Ok_inv.
  apply bind_Ok_inv in Hrest as (_ & _ & [= <-]).
  unfold df_at. by rewrite df_row_set_loc.
Qed.

Lemma make_affiliations_dicts_Ok_index (df : frame InfoRow) (order : list string)
    (reg : Registry) (a : string) :
  _make_affiliations_dicts df order = Ok reg → a ∈ order → a ∈ index df.
Proof.
  intros Hrun Ha. destruct (decide (a ∈ index df)) as [? | Hnot]; [done |].
  destruct (make_affiliations_dicts_missing df order empty_registry
              empty_registry_wf) as (b & _ & _ & Hraise); [by eauto |].
  unfold _make_affiliations_dicts in Hrun. congruence.
Qed.

Lemma make_creator_array_Ok (df : frame InfoRow) (order : list string) :
  (∀ a, a ∈ order → a ∈ index df) →
  ∃ creators, _make_creator_array df order = Ok creators.
Proof.
  unfold _make_creator_array.
  induction order as [|a order IH]; intros Hin; simpl; [by eauto |].
  destruct (df_row_index df a) as [r Hr]; [apply Hin; left |].
  rewrite (creator_dict_of_row _ _ _ Hr). simpl.
  destruct IH as [creators ->]; [intros b Hb; apply Hin; by right |].
  simpl. eauto.
Qed.

(** C10. The registry does not single out the sentinel: an author of the
    order whose affiliation cell is "not-provided" puts that string in
    [affiliation_list], where it has a place and hence a number like any
    other string; the number is among the author's numbers and the
    affiliation strings carry the entry "<number>-not-provided".  The
    creator array is where the sentinel is dropped: that author's dict has
    no 'affiliation' key.  The author appended by hand, ClayssenQ, is such
    an author for every master sheet. *)
Theorem sentinel_affiliation_is_numbered (df : frame InfoRow)
    (order : list string) (reg : Registry) (a : string) (i : nat) :
  _make_affiliations_dicts df order = Ok reg →
  order !! i = Some a →
  df_at df a affiliation = Ok (Str "not-provided") →
  Str "not-provided" ∈ affiliation_list reg ∧
  (∃ n : nat,
     1 ≤ n ∧
     affiliation_list reg !! (n - 1) = Some (Str "not-provided") ∧
     affil_str_to_affil_num_dict reg !! Str "not-provided" = Some n ∧
     affil_num_to_affil_str_dict reg !! n = Some (Str "not-provided") ∧
     n ∈ defaultdict_get (author_to_affil_num_list_dict reg) a ∧
     ∃ entries : list string,
       affiliation_entries reg = Ok entries ∧
       entries !! (n - 1) = Some (str_nat n +:+ "-" +:+ "not-provided") ∧
       _create_affiliation_strings reg
       = Ok (join (";" +:+ newline) entries, join "; " entries)) ∧
  (∃ creators d,
     _make_creator_array df order = Ok creators ∧
     creators !! i = Some d ∧
     d !! "affiliation" = None) ∧
  (∀ template df', _make_author_info_df template = Ok df' →
                   df_at df' "ClayssenQ" affiliation = Ok (Str "not-provided")).
Proof.
  intros Hrun Hi Hs.
  assert (a ∈ order) as Ha by (by eapply list_elem_of_lookup_2).
  pose proof (make_affiliations_dicts_wf _ _ _ Hrun) as Hwf.
  destruct (author_number_recorded df order empty_registry reg a _
              empty_registry_wf Hrun Ha Hs) as (n & Hn & Hmine).
  pose proof Hn as (j & -> & Hj)%(wf_str_to_num _ Hwf).
  split; [by eapply list_elem_of_lookup_2 |].
  split; [| split].
  - exists (S j). simpl. rewrite Nat.sub_0_r.
    split; [lia |]. split; [done |]. split; [done |].
    split; [apply (wf_num_to_str _ Hwf); eauto |]. split; [done |].
    exists (imap affiliation_entry (affiliation_list reg)).
    split; [by apply affiliation_entries_imap |]. split.
    + rewrite list_lookup_imap, Hj. simpl. unfold affiliation_entry.
      by rewrite Nat.add_1_r.
    + unfold _create_affiliation_strings.
      rewrite (affiliation_entries_imap _ Hwf). done.
  - destruct (make_creator_array_Ok df order) as [creators Hcreators].
    { intros b Hb. by eapply make_affiliations_dicts_Ok_index. }
    destruct (comprehension_Ok_lookup _ _ _ _ _ Hcreators Hi) as (d & Hd & Hdict).
    exists creators, d. split; [done |]. split; [done |].
    apply df_at_Ok_inv in Hs as (r & Hr & Haff).
    rewrite (creator_dict_of_row _ _ _ Hr) in Hdict. injection Hdict as <-.
    rewrite creator_of_row_affiliation, <- Haff. by rewrite decide_True.
  - apply Clayssen_not_provided.
Qed.

Lemma sentinel_affiliation_is_numbered_witness :
  Str "not-provided" ∈ affiliation_list sample_registry ∧
  (∃ n : nat,
     1 ≤ n ∧
     affiliation_list sample_registry !! (n - 1) = Some (Str "not-provided") ∧
     affil_str_to_affil_num_dict sample_registry !! Str "not-provided" = Some n ∧
     affil_num_to_affil_str_dict sample_registry !! n = Some (Str "not-provided") ∧
     n ∈ defaultdict_get (author_to_affil_num_list_dict sample_registry) "ClayssenQ" ∧
     ∃ entries : list string,
       affiliation_entries sample_registry = Ok entries ∧
       entries !! (n - 1) = Some (str_nat n +:+ "-" +:+ "not-provided") ∧
       _create_affiliation_strings sample_registry
       = Ok (join (";" +:+ newline) entries, join "; " entries)) ∧
  (∃ creators d,
     _make_creator_array sample_df sample_order = Ok creators ∧
     creators !! 3 = Some d ∧
     d !! "affiliation" = None) ∧
  (∀ template df', _make_author_info_df template = Ok df' →
                   df_at df' "ClayssenQ" affiliation = Ok (Str "not-provided")).
Proof.
  apply (sentinel_affiliation_is_numbered sample_df sample_order sample_registry
           "ClayssenQ" 3).
  - vm_compute. reflexivity.
  - reflexivity.
  - reflexivity.
Defined.

(** The outputs of the sample: the sentinel is the third affiliation. *)
Example sample_affiliation_strings :
  _create_affiliation_strings sample_registry
  = Ok ("1-Lab1;" +:+ newline +:+ "2-Lab2;" +:+ newline +:+ "3-not-provided",
        "1-Lab1; 2-Lab2; 3-not-provided").
Proof. vm_compute. reflexivity. Qed.

Example sample_author_string :
  _create_author_with_affiliation_string sample_df sample_order sample_registry
  = Ok "Smith, J.¹; Doe, A.²; Lee, K.¹; Clayssen, C.³".
Proof. vm_compute. reflexivity. Qed.

(** ** The author order *)

Lemma filter_ext_in {A : Type} (P1 P2 : A → Prop) `{!∀ x, Decision (P1 x)}
    `{!∀ x, Decision (P2 x)} (l : list A) :
  (∀ x, x ∈ l → P1 x ↔ P2 x) → filter P1 l = filter P2 l.
Proof.
  induction l as [|x l IH]; intros Hext; [done |].
  assert (filter P1 l = filter P2 l) as Hl.
  { apply IH. intros y Hy. apply Hext. by right. }
  destruct (decide (P1 x)) as [H1 | H1].
  - rewrite !filter_cons_True; [by rewrite Hl | | done]. apply Hext; [left | done].
  - rewrite !filter_cons_False; [done | | done].
    intros H2. apply H1. apply Hext; [left | done].
Qed.

Lemma df_row_NoDup {R : Type} (df : frame R) (k : string) (r : R) :
  NoDup (index df) → (k, r) ∈ df → df_row df k = Ok r.
Proof.
  unfold index. induction df as [|[k' r'] df IH]; intros Hnd Hin.
  - by apply not_elem_of_nil in Hin.
  - rewrite fmap_cons in Hnd. apply NoDup_cons in Hnd as [Hk' Hnd]. simpl.
    apply elem_of_cons in Hin as [[= -> ->] | Hin].
    + by rewrite String.eqb_refl.
    + destruct (String.eqb k' k) eqn:Hk; [| by apply IH].
      apply String.eqb_eq in Hk as ->. exfalso. apply Hk'.
      apply list_elem_of_fmap. by exists (k, r).
Qed.

Lemma category_pass_body (df : frame OrderRow) (order : list string) (c : Category) :
  category_pass df order c = for_each (pass_body df c) (index df) order.
Proof. unfold category_pass, pass_body. by case_bool_decide. Qed.

Lemma pass_body_eq (df : frame OrderRow) (c : Category) (order : list string)
    (k : string) (r : OrderRow) :
  df_row df k = Ok r →
  pass_body df c order k
  = Ok (if bool_decide (k ∉ order) && eligible c r then order ++ [k] else order).
Proof.
  intros Hr. unfold pass_body, eligible.
  case_bool_decide; unfold ordinary_body, override_body, py_and, df_at;
    rewrite Hr; simpl.
  - destruct (bool_decide (k ∉ order)); simpl; [| done].
    destruct (0 <? o_weight r c)%Z; simpl; [| done].
    destruct (o_weight r ScientificDirector =? 0)%Z; simpl; [| done].
    by destruct (o_weight r Contrib3 =? 0)%Z.
  - destruct (bool_decide (k ∉ order)); simpl; [| done].
    by destruct (0 <? o_weight r c)%Z.
Qed.

(** The inner loop over a stretch [rest] of the table. *)
Lemma pass_loop (df rest : frame OrderRow) (c : Category) (order : list string) :
  (∀ k r, (k, r) ∈ rest → df_row df k = Ok r) →
  NoDup (index rest) →
  for_each (pass_body df c) (index rest) order
  = Ok (order ++ pass_segment rest c order).
Proof.
  unfold pass_segment, index.
  revert order. induction rest as [|[k r] rest IH]; intros order Hrows Hnd.
  - simpl. by rewrite app_nil_r.
  - rewrite fmap_cons in Hnd. apply NoDup_cons in Hnd as [Hk Hnd].
    rewrite fmap_cons, for_each_cons. cbn [fst].
    rewrite (pass_body_eq df c order k r) by (apply Hrows; left).
    cbn [mbind result_bind].
    rewrite IH; [| intros k' r' Hin; apply Hrows; by right | done].
    f_equal.
    destruct (bool_decide (k ∉ order) && eligible c r) eqn:Hcond.
    + apply andb_true_iff in Hcond as [Hk1%bool_decide_eq_true Hk2].
      rewrite (filter_cons_True _ (k, r)).
      2:{ simpl. split; [done | by apply Is_true_true]. }
      rewrite fmap_cons, <- app_assoc. simpl. do 3 f_equal.
      apply filter_ext_in. intros [k' r'] Hin. simpl.
      rewrite not_elem_of_app, list_elem_of_singleton.
      assert (k' ≠ k); [| tauto].
      intros ->. apply Hk. apply list_elem_of_fmap. by exists (k, r').
    + rewrite (filter_cons_False _ (k, r)); [done |].
      simpl. intros [Hk1 Hk2%Is_true_true].
      apply (bool_decide_eq_true_2 (k ∉ order)) in Hk1. by rewrite Hk1, Hk2 in Hcond.
Qed.

Lemma category_pass_eq (df : frame OrderRow) (order : list string) (c : Category) :
  NoDup (index df) →
  category_pass df order c = Ok (order ++ pass_segment df c order).
Proof.
  intros Hnd. rewrite category_pass_body. apply pass_loop; [| done].
  intros k r. by apply df_row_NoDup.
Qed.

Lemma pass_segment_sublist (df : frame OrderRow) (c : Category) (order : list string) :
  pass_segment df c order `sublist_of` index df.
Proof. unfold pass_segment, index. apply fmap_sublist, sublist_filter. Qed.

Lemma elem_of_pass_segment (df : frame OrderRow) (c : Category)
    (order : list string) (k : string) :
  k ∈ pass_segment df c order
  ↔ (k ∉ order) ∧ ∃ r, (k, r) ∈ df ∧ eligible c r.
Proof.
  unfold pass_segment. rewrite list_elem_of_fmap. split.
  - intros ([k' r] & -> & [[Hk He] Hin]%list_elem_of_filter). simpl in *. eauto.
  - intros (Hk & r & Hin & He). exists (k, r). split; [done |].
    apply list_elem_of_filter. done.
Qed.

Lemma frame_row_unique {R : Type} (df : frame R) (k : string) (r r' : R) :
  NoDup (index df) → (k, r) ∈ df → (k, r') ∈ df → r = r'.
Proof.
  intros Hnd Hr Hr'.
  apply (df_row_NoDup _ _ _ Hnd) in Hr. apply (df_row_NoDup _ _ _ Hnd) in Hr'.
  congruence.
Qed.

(** The invariant of the loop over the categories: the list stays free of
    repetitions and within the index, and a key is in it exactly when some
    pass so far found its row eligible. *)
Lemma passes_spec (df : frame OrderRow) (cs : list Category) (acc : list string) :
  NoDup (index df) → NoDup acc → (∀ k, k ∈ acc → k ∈ index df) →
  ∃ acc',
    for_each (category_pass df) cs acc = Ok acc' ∧
    NoDup acc' ∧
    (∀ k, k ∈ acc' → k ∈ index df) ∧
    (∀ k r, (k, r) ∈ df →
            k ∈ acc' ↔ k ∈ acc ∨ ∃ c, c ∈ cs ∧ eligible c r).
Proof.
  intros Hnd. revert acc. induction cs as [|c cs IH]; intros acc Hacc Hsub.
  - exists acc. split; [done |]. split; [done |]. split; [done |].
    intros k r _. split; [by left |].
    intros [? | (c & Hc & _)]; [done | by apply not_elem_of_nil in Hc].
  - rewrite for_each_cons, (category_pass_eq _ _ _ Hnd). cbn [mbind result_bind].
    destruct (IH (acc ++ pass_segment df c acc)) as (acc' & Hrun & Hnd' & Hsub' & Hmem).
    + apply NoDup_app. split; [done |]. split.
      * by intros k Hk [Hnot _]%elem_of_pass_segment.
      * apply (sublist_NoDup _ (index df)); [done | apply pass_segment_sublist].
    + intros k [Hk | Hk]%elem_of_app; [by apply Hsub |].
      eapply elem_of_sublist; [done | apply pass_segment_sublist].
    + exists acc'. split; [done |]. split; [done |]. split; [done |].
      intros k r Hkr. rewrite (Hmem k r Hkr), elem_of_app, elem_of_pass_segment.
      split.
      * intros [[Hk | (Hnot & r' & Hkr' & He)] | (c' & Hc' & He)].
        -- by left.
        -- right. exists c. split; [left |].
           by rewrite (frame_row_unique _ _ _ _ Hnd Hkr Hkr').
        -- right. exists c'. split; [by right | done].
      * intros [Hk | (c' & [-> | Hc']%elem_of_cons & He)].
        -- left. by left.
        -- destruct (decide (k ∈ acc)) as [Hk | Hk]; [left; by left |].
           left. right. eauto.
        -- right. eauto.
Qed.

Lemma passes_from_nil (df : frame OrderRow) (cs : list Category) :
  NoDup (index df) →
  ∃ order,
    for_each (category_pass df) cs [] = Ok order ∧
    NoDup order ∧
    (∀ k, k ∈ order → k ∈ index df) ∧
    (∀ k r, (k, r) ∈ df → k ∈ order ↔ ∃ c, c ∈ cs ∧ eligible c r).
Proof.
  intros Hnd.
  destruct (passes_spec df cs [] Hnd) as (order & Hrun & Hnd' & Hsub & Hmem).
  { constructor. }
  { intros k Hk. by apply not_elem_of_nil in Hk. }
  exists order. split; [done |]. split; [done |]. split; [done |].
  intros k r Hkr. rewrite (Hmem k r Hkr). split; [| by right].
  intros [Hk | ?]; [by apply not_elem_of_nil in Hk | done].
Qed.


(** Eligibility in the words of the weights. *)
Lemma eligible_override (c : Category) (r : OrderRow) :
  override c → eligible c r ↔ weighted r c.
Proof.
  unfold override, eligible, weighted. intros Hc.
  rewrite bool_decide_eq_false_2 by (intros Hn; by apply Hn).
  by rewrite Is_true_true, Z.ltb_lt.
Qed.

Lemma eligible_ordinary (c : Category) (r : OrderRow) :
  ordinary c →
  eligible c r
  ↔ weighted r c ∧ o_weight r ScientificDirector = 0%Z ∧ o_weight r Contrib3 = 0%Z.
Proof.
  unfold ordinary, eligible, weighted. intros Hc.
  rewrite bool_decide_eq_true_2.
  - rewrite Is_true_true, !andb_true_iff, Z.ltb_lt, !Z.eqb_eq. tauto.
  - destruct c; first [by apply (bool_decide_unpack _) | exfalso];
      revert Hc; by apply (bool_decide_unpack _).
Qed.

Lemma comprehension_length {A B : Type} (f : A → result B) (xs : list A) (ys : list B) :
  comprehension f xs = Ok ys → length ys = length xs.
Proof.
  revert ys. induction xs as [|x xs IH]; intros ys; simpl.
  - by intros [= <-].
  - intros (y & _ & (ys' & Hys & [= <-])%bind_Ok_inv)%bind_Ok_inv.
    simpl. f_equal. by apply IH.
Qed.

Lemma size_list_to_set_le (l : list string) :
  size (list_to_set l : gset string) ≤ length l.
Proof.
  induction l as [|x l IH].
  - change (size (∅ : gset string) ≤ 0). by rewrite size_empty.
  - change (size ({[x]} ∪ list_to_set l : gset string) ≤ S (length l)).
    rewrite size_union_alt, size_singleton.
    assert (size ((list_to_set l : gset string) ∖ {[x]}) ≤ size (list_to_set l : gset string));
      [| lia].
    apply subseteq_size, subseteq_difference_l. reflexivity.
Qed.

Lemma size_list_to_set_NoDup (l : list string) :
  size (list_to_set l : gset string) = length l → NoDup l.
Proof.
  induction l as [|x l IH]; intros Hsize; [constructor |].
  change (size ({[x]} ∪ list_to_set l : gset string) = S (length l)) in Hsize.
  pose proof (size_list_to_set_le l) as Hle.
  destruct (decide (x ∈ l)) as [Hin | Hnot].
  - exfalso.
    assert ({[x]} ∪ list_to_set l = (list_to_set l : gset string)) as Heq.
    { apply subseteq_union_1_L, singleton_subseteq_l, elem_of_list_to_set. done. }
    rewrite Heq in Hsize. lia.
  - constructor; [done |]. apply IH.
    rewrite size_union, size_singleton in Hsize; [lia |].
    apply disjoint_singleton_l. by rewrite elem_of_list_to_set.
Qed.

Lemma assert_unique_NoDup (l : list string) : NoDup l → assert_unique l = Ok tt.
Proof.
  intros Hnd. unfold assert_unique, py_assert.
  by rewrite size_list_to_set, Nat.eqb_refl.
Qed.

Lemma assert_unique_Ok (l : list string) (u : unit) : assert_unique l = Ok u → NoDup l.
Proof.
  unfold assert_unique, py_assert.
  destruct (length l =? size (list_to_set l : gset string)) eqn:Hlen; [| done].
  intros _. apply Nat.eqb_eq in Hlen. by apply size_list_to_set_NoDup.
Qed.

Lemma order_frame_index (sheet : list MemberRow) (df : frame OrderRow) :
  order_frame sheet = Ok df →
  order_index (filtered_rows sheet) = Ok (index df) ∧
  length (index df) = length (filtered_rows sheet).
Proof.
  unfold order_frame. intros (name_index & Hidx & [= <-])%bind_Ok_inv.
  pose proof (comprehension_length _ _ _ Hidx) as Hlen.
  unfold index. rewrite fst_zip by lia. done.
Qed.

(** Past the two assertions on the keys, [_make_author_order] is the loop
    followed by the assertion on the length. *)
Lemma make_author_order_eq (sheet : list MemberRow) (df : frame OrderRow) :
  order_frame sheet = Ok df → NoDup (index df) →
  _make_author_order sheet
  = (order ← order_loop df;
     _ ← py_assert (length order =? length (index df))%nat; Ok order).
Proof.
  intros Hdf Hnd. destruct (order_frame_index _ _ Hdf) as [Hidx _].
  unfold order_frame in Hdf. rewrite Hidx in Hdf. injection Hdf as Hdf.
  unfold _make_author_order. cbv zeta. rewrite Hidx. cbn [mbind result_bind].
  rewrite assert_unique_NoDup by done. cbn [mbind result_bind].
  by rewrite Hdf.
Qed.

Lemma make_author_order_inv (sheet : list MemberRow) (order : list string) :
  _make_author_order sheet = Ok order →
  ∃ df, order_frame sheet = Ok df ∧ NoDup (index df) ∧
        order_loop df = Ok order ∧ length order = length (index df).
Proof.
  intros Hrun. pose proof Hrun as Hrun'. unfold _make_author_order in Hrun'.
  cbv zeta in Hrun'.
  apply bind_Ok_inv in Hrun' as (name_index & Hidx & Hrest).
  apply bind_Ok_inv in Hrest as (u & Huniq%assert_unique_Ok & _).
  assert (order_frame sheet = Ok (zip name_index (filtered_rows sheet))) as Hdf.
  { unfold order_frame. by rewrite Hidx. }
  destruct (order_frame_index _ _ Hdf) as [Hidx' _].
  rewrite Hidx in Hidx'. injection Hidx' as Hidx'.
  exists (zip name_index (filtered_rows sheet)).
  split; [done |]. split; [by rewrite <- Hidx' |].
  rewrite (make_author_order_eq _ _ Hdf) in Hrun by (by rewrite <- Hidx').
  apply bind_Ok_inv in Hrun as (order' & Hloop & Hrest).
  unfold py_assert in Hrest.
  destruct (length order' =? length _)%nat eqn:Hlen; [| done].
  injection Hrest as <-. by apply Nat.eqb_eq in Hlen.
Qed.


Lemma ordinary_or_override (c : Category) : ordinary c ∨ override c.
Proof.
  unfold ordinary, override.
  destruct c; first [left; by apply (bool_decide_unpack _)
                    | right; by apply (bool_decide_unpack _)].
Qed.

Lemma ordinary_not_override (c : Category) : ordinary c → ¬ override c.
Proof.
  unfold ordinary, override. intros Hc Hn.
  destruct c; first [revert Hc; by apply (bool_decide_unpack _)
                    | revert Hn; by apply (bool_decide_unpack _)].
Qed.


Lemma override_cases (c : Category) :
  override c → c = ScientificDirector ∨ c = Contrib3.
Proof.
  unfold override. intros Hc.
  repeat (apply elem_of_cons in Hc as [-> | Hc]; [tauto |]).
  by apply not_elem_of_nil in Hc.
Qed.


(** When the final assertion holds, every key of the table is in the
    order. *)
Lemma every_author_in_order (df : frame OrderRow) (order : list string) :
  NoDup (index df) → order_loop df = Ok order →
  length order = length (index df) →
  ∀ k, k ∈ index df → k ∈ order.
Proof.
  intros Hnd Hloop Hlen k Hk.
  destruct (passes_from_nil df author_categories Hnd)
    as (order' & Hrun & Hnd' & Hsub & _).
  unfold order_loop in Hloop. rewrite Hrun in Hloop. injection Hloop as ->.
  assert (order ≡ₚ index df) as Hperm.
  { apply submseteq_length_Permutation; [by apply NoDup_submseteq | lia]. }
  by rewrite Hperm.
Qed.

Lemma eligible_placeable (r : OrderRow) : (∃ c, eligible c r) ↔ placeable r.
Proof.
  unfold placeable. split.
  - intros [c He]. destruct (ordinary_or_override c) as [Ho | Ho].
    + apply eligible_ordinary in He as (Hw & Hsd & Hc3); [| done].
      right. right. eauto.
    + apply eligible_override in He; [| done].
      apply override_cases in Ho as [-> | ->]; tauto.
  - intros [Hw | [Hw | (Hsd & Hc3 & c & Hc & Hw)]].
    + exists ScientificDirector. apply eligible_override; [| done].
      by apply (bool_decide_unpack _).
    + exists Contrib3. apply eligible_override; [| done].
      by apply (bool_decide_unpack _).
    + exists c. by apply eligible_ordinary.
Qed.

Lemma prefix_earlier (cs rest : list Category) (c : Category) :
  author_categories = cs ++ c :: rest → cs = earlier_categories c.
Proof.
  unfold author_categories. intros H.
  do 7 (destruct cs as [|? cs]; simplify_eq/=; try done).
Qed.

Lemma placeable_dec (r : OrderRow) : Decision (placeable r).
Proof.
  destruct (decide (Exists (λ c, eligible c r) author_categories)) as [Hex | Hno].
  - left. apply eligible_placeable. apply Exists_exists in Hex as (c & _ & He). eauto.
  - right. intros [c He]%eligible_placeable. apply Hno, Exists_exists.
    exists c. split; [by destruct c; apply (bool_decide_unpack _) | done].
Qed.







(** C2. With unique keys in the filtered rows, the loops of
    [_make_author_order] end with a list that has no repetition and holds
    exactly the keys of the rows that some pass accepts: those weighted in
    an override category, and those weighted in an ordinary category whose
    override weights are zero.  When every filtered row is such a row, the
    function returns that list, which then holds every key of the filtered
    rows exactly once and is as long as the filtered table.  When some row
    is not, the final assertion fails, a key being left out: no author is
    dropped silently. *)
Theorem every_author_placed_once (sheet : list MemberRow) (df : frame OrderRow) :
  order_frame sheet = Ok df → NoDup (index df) →
  ∃ placed,
    order_loop df = Ok placed ∧
    NoDup placed ∧
    (∀ k, k ∈ placed ↔ ∃ r, (k, r) ∈ df ∧ placeable r) ∧
    (Forall (λ p, placeable p.2) df →
       _make_author_order sheet = Ok placed ∧
       placed ≡ₚ index df ∧
       (∀ k, k ∈ index df → k ∈ placed) ∧
       length placed = length (filtered_rows sheet)) ∧
    (¬ Forall (λ p, placeable p.2) df →
       _make_author_order sheet = Raise AssertionError ∧
       ∃ k, k ∈ index df ∧ k ∉ placed).
Proof.
  intros Hdf Hnd.
  destruct (order_frame_index _ _ Hdf) as [_ Hlen].
  destruct (passes_from_nil df author_categories Hnd)
    as (placed & Hloop & Hnd' & Hsub & Hmem).
  assert (∀ k, k ∈ placed ↔ ∃ r, (k, r) ∈ df ∧ placeable r) as Hiff.
  { intros k. split.
    - intros Hk. pose proof (Hsub k Hk) as Hidx.
      apply list_elem_of_fmap in Hidx as ([k' r] & -> & Hkr).
      exists r. split; [done |]. apply eligible_placeable.
      apply (Hmem _ _ Hkr) in Hk as (c & _ & He). eauto.
    - intros (r & Hkr & [c He]%eligible_placeable). apply (Hmem _ _ Hkr).
      exists c. split; [by destruct c; apply (bool_decide_unpack _) | done]. }
  pose proof (NoDup_submseteq _ _ Hnd' Hsub) as Hsubm.
  exists placed. split; [done |]. split; [done |]. split; [done |].
  rewrite (make_author_order_eq _ _ Hdf Hnd). unfold order_loop. rewrite Hloop.
  cbn [mbind result_bind]. split.
  - intros Hall. rewrite Forall_forall in Hall.
    assert (∀ k, k ∈ index df → k ∈ placed) as Hsup.
    { intros k ([k' r] & -> & Hkr)%list_elem_of_fmap. apply Hiff.
      exists r. split; [done | by apply (Hall (k', r))]. }
    assert (placed ≡ₚ index df) as Hperm.
    { apply submseteq_length_Permutation; [done |].
      apply submseteq_length. by apply NoDup_submseteq. }
    rewrite (Permutation_length Hperm), Nat.eqb_refl. simpl.
    split; [done |]. split; [done |]. split; [done |]. by rewrite <- Hlen.
  - intros Hnot. apply not_Forall_Exists in Hnot; [| intros p; apply placeable_dec].
    apply Exists_exists in Hnot as ([k r] & Hkr & Hnp). simpl in Hnp.
    assert (k ∉ placed) as Hout.
    { intros (r' & Hkr' & Hp)%Hiff.
      by rewrite (frame_row_unique _ _ _ _ Hnd Hkr Hkr') in Hnp. }
    assert (length placed ≠ length (index df)) as Hne.
    { intros Heq. apply Hout.
      assert (placed ≡ₚ index df) as Hperm.
      { apply submseteq_length_Permutation; [done | lia]. }
      rewrite Hperm. apply list_elem_of_fmap. by exists (k, r). }
    apply Nat.eqb_neq in Hne. rewrite Hne. simpl. split; [done |].
    exists k. split; [| done]. apply list_elem_of_fmap. by exists (k, r).
Qed.

Lemma every_author_placed_once_witness :
  ∃ order,
    _make_author_order sample_sheet = Ok order ∧
    NoDup order ∧ order ≡ₚ index sample_order_frame ∧
    (∀ k, k ∈ order ↔ ∃ r, (k, r) ∈ sample_order_frame ∧ placeable r) ∧
    length order = length (filtered_rows sample_sheet).
Proof.
  destruct (every_author_placed_once sample_sheet sample_order_frame)
    as (placed & _ & Hnd & Hmem & Hall & _).
  - reflexivity.
  - by apply (bool_decide_unpack _).
  - destruct Hall as (Hrun & Hperm & _ & Hlen).
    + unfold sample_order_frame. rewrite !Forall_cons.
      split; [| split; [| split; [| split; [| constructor]]]];
        apply eligible_placeable.
      * by exists FirstAuthor.
      * by exists ScientificDirector.
      * by exists Contrib1.
      * by exists Contrib3.
    + exists placed. split; [exact Hrun |]. split; [exact Hnd |].
      split; [exact Hperm |]. split; [exact Hmem | exact Hlen].
Defined.

Example sample_author_order :
  _make_author_order sample_sheet = Ok ["SmithJ"; "DoeA"; "LeeK"; "ClayssenQ"].
Proof. vm_compute. reflexivity. Qed.

(** A row that no pass accepts trips the assertion. *)
Example unplaced_row_aborts :
  _make_author_order [member_row "Smith" "John" 0 0 0 0 0 0 1]
  = Raise AssertionError.
Proof. vm_compute. reflexivity. Qed.



(** The scenario of the specification: Lee, a first author who is also a
    scientific director, comes after Doe. *)
Example override_scenario :
  _make_author_order [ member_row "Smith" "John" 1 0 0 0 0 0 1;
                       member_row "Doe" "Ann" 0 1 0 0 0 0 1;
                       member_row "Lee" "Kim" 1 0 0 0 1 0 2 ]
  = Ok ["SmithJ"; "DoeA"; "LeeK"].
Proof. vm_compute. reflexivity. Qed.

(** A row whose only override weight is negative passes no test of the
    loops (neither [== 0] nor [> 0]): it is never placed and the final
    assertion stops the run, so no order is returned for such a table. *)
Example negative_override_weight_aborts :
  _make_author_order [member_row "Smith" "John" 2 0 0 0 (-1) 0 1]
  = Raise AssertionError.
Proof. vm_compute. reflexivity. Qed.

(** ** One number per author *)

Lemma author_numbers_single (df : frame InfoRow) (order : list string)
    (st reg : Registry) :
  registry_wf st → NoDup order →
  (∀ a, a ∈ order → author_to_affil_num_list_dict st !! a = None) →
  for_each (affil_author_body df) order st = Ok reg →
  ∀ a, a ∈ order →
    ∃ n s, df_at df a affiliation = Ok s ∧
           affil_str_to_affil_num_dict reg !! s = Some n ∧
           author_to_affil_num_list_dict reg !! a = Some [n].
Proof.
  revert st. induction order as [|b order IH]; intros st Hwf Hnd Hfresh Hrun a Ha.
  - by apply not_elem_of_nil in Ha.
  - apply NoDup_cons in Hnd as [Hb Hnd].
    rewrite for_each_cons in Hrun.
    apply bind_Ok_inv in Hrun as (st1 & Hbody & Hrest).
    destruct (affil_author_body_spec _ _ _ _ Hwf Hbody)
      as (s & n & Hs & Hwf1 & Hn & Hdict & _).
    destruct (affil_loop_invariant _ _ _ _ Hwf1 Hrest) as (_ & _ & Hkeep & Hframe & _).
    apply elem_of_cons in Ha as [-> | Ha].
    + exists n, s. split; [done |]. split; [by apply Hkeep |].
      rewrite Hframe by done. rewrite Hdict. unfold defaultdict_append, defaultdict_get.
      rewrite lookup_insert_eq, Hfresh by left. done.
    + apply (IH st1); try done.
      intros a' Ha'. rewrite Hdict. unfold defaultdict_append.
      rewrite lookup_insert_ne; [apply Hfresh; by right |].
      intros ->. done.
Qed.

Lemma make_author_order_NoDup (sheet : list MemberRow) (order : list string) :
  _make_author_order sheet = Ok order → NoDup order.
Proof.
  intros (df & _ & Hnd & Hloop & _)%make_author_order_inv.
  destruct (passes_from_nil df author_categories Hnd) as (order' & Hrun & Hnd' & _).
  unfold order_loop in Hloop. rewrite Hrun in Hloop. by injection Hloop as <-.
Qed.

(** C9. In the registry built for an author order that
    [_make_author_order] returned, every author of the order has exactly
    one affiliation number: the list kept for the author is the one-element
    list of the number of the author's affiliation cell, taken whole. *)
Theorem one_affiliation_number_per_author (sheet : list MemberRow)
    (df : frame InfoRow) (order : list string) (reg : Registry) (a : string) :
  _make_author_order sheet = Ok order →
  _make_affiliations_dicts df order = Ok reg →
  a ∈ order →
  ∃ (n : nat) (s : cell),
    df_at df a affiliation = Ok s ∧
    affil_str_to_affil_num_dict reg !! s = Some n ∧
    author_to_affil_num_list_dict reg !! a = Some [n] ∧
    length (defaultdict_get (author_to_affil_num_list_dict reg) a) = 1.
Proof.
  intros Horder Hreg Ha.
  destruct (author_numbers_single df order empty_registry reg empty_registry_wf
              (make_author_order_NoDup _ _ Horder)) with (a := a)
    as (n & s & Hs & Hn & Hlist); try done.
  exists n, s. split; [done |]. split; [done |]. split; [done |].
  unfold defaultdict_get. by rewrite Hlist.
Qed.

Lemma one_affiliation_number_per_author_witness :
  ∃ (n : nat) (s : cell),
    df_at sample_df "LeeK" affiliation = Ok s ∧
    affil_str_to_affil_num_dict sample_registry !! s = Some n ∧
    author_to_affil_num_list_dict sample_registry !! "LeeK" = Some [n] ∧
    length (defaultdict_get (author_to_affil_num_list_dict sample_registry) "LeeK") = 1.
Proof.
  apply (one_affiliation_number_per_author sample_sheet sample_df sample_order
           sample_registry "LeeK").
  - vm_compute. reflexivity.
  - vm_compute. reflexivity.
  - by apply (bool_decide_unpack _).
Defined.

(** Without the guarantee of [_make_author_order], a key listed twice
    collects two numbers. *)
Example repeated_author_two_numbers :
  ∃ reg, _make_affiliations_dicts sample_df ["SmithJ"; "SmithJ"] = Ok reg ∧
         author_to_affil_num_list_dict reg !! "SmithJ" = Some [1; 1].
Proof. eexists. split; vm_compute; reflexivity. Qed.

(** ** The submission *)

Lemma create_blank_deposition_eq (server : Server) (sv : SubmissionVars)
    (log : list Request) :
  _create_blank_deposition server sv log
  = (deposition_ids (server log (PostDeposition (access_token sv))),
     log ++ [PostDeposition (access_token sv)]).
Proof.
  unfold _create_blank_deposition, deposition_ids, net_bind, net_send, net_lift, net_ret.
  destruct (response_json _) as [j|e]; simpl; [| done].
  destruct (json_item j "links") as [links|e]; simpl; [| done].
  destruct (json_item links "bucket") as [b|e]; simpl; [| done].
  by destruct (json_item j "id").
Qed.

Lemma upload_body_eq (host : Host) (server : Server) (sv : SubmissionVars)
    (bucket_url : JSON) (path filename : string) (log : list Request) :
  upload_body host server sv bucket_url (path, filename) log
  = match read_lines host path with
    | Some _ => (Ok tt, log ++ [PutFile bucket_url filename path (access_token sv)])
    | None => (Raise (open_error host path), log)
    end.
Proof.
  unfold upload_body, net_bind, net_lift, net_send, net_ret, py_open. simpl.
  by destruct (read_lines host path).
Qed.

Lemma net_for_each_cons {A : Type} (body : A → Net unit) (x : A) (xs : list A)
    (log : list Request) :
  net_for_each body (x :: xs) log
  = match body x log with
    | (Ok _, log') => net_for_each body xs log'
    | (Raise e, log') => (Raise e, log')
    end.
Proof. reflexivity. Qed.

(** The upload loop never looks at a response: it sends one request per
    file, in order, and stops only at a file that cannot be opened. *)
Lemma upload_loop_eq (host : Host) (server : Server) (sv : SubmissionVars)
    (bucket_url : JSON) (files : list (string * string)) (log : list Request) :
  ∃ n : nat,
    n ≤ length files ∧
    (∀ s' : Server,
       net_for_each (upload_body host s' sv bucket_url) files log
       = net_for_each (upload_body host server sv bucket_url) files log) ∧
    net_for_each (upload_body host server sv bucket_url) files log
    = (match files !! n with
       | None => Ok tt
       | Some pf => Raise (open_error host pf.1)
       end,
       log ++ upload_requests bucket_url (access_token sv) (take n files)).
Proof.
  revert log. induction files as [|[path filename] files IH]; intros log.
  - exists 0. split; [done |]. split; [done |]. simpl. unfold net_ret.
    by rewrite app_nil_r.
  - destruct (read_lines host path) as [lines|] eqn:Hopen.
    + destruct (IH (log ++ [PutFile bucket_url filename path (access_token sv)]))
        as (n & Hn & Hany & Hrun).
      exists (S n). split; [simpl; lia |]. split.
      * intros s'. rewrite !net_for_each_cons, !upload_body_eq, Hopen. apply Hany.
      * rewrite net_for_each_cons, upload_body_eq, Hopen, Hrun. simpl.
        by rewrite <- app_assoc.
    + exists 0. split; [simpl; lia |]. split.
      * intros s'. by rewrite !net_for_each_cons, !upload_body_eq, Hopen.
      * rewrite net_for_each_cons, upload_body_eq, Hopen. simpl.
        by rewrite app_nil_r.
Qed.

(** The upload loop when every file opens. *)
Lemma upload_loop_all_open (host : Host) (server : Server) (sv : SubmissionVars)
    (bucket_url : JSON) (files : list (string * string)) (log : list Request) :
  Forall (λ pf, is_Some (read_lines host pf.1)) files →
  net_for_each (upload_body host server sv bucket_url) files log
  = (Ok tt, log ++ upload_requests bucket_url (access_token sv) files).
Proof.
  intros Hall. revert log.
  induction Hall as [|[path filename] files [lines Hopen] _ IH]; intros log.
  - simpl. unfold net_ret. by rewrite app_nil_r.
  - simpl in Hopen. rewrite net_for_each_cons, upload_body_eq, Hopen, IH. simpl.
    by rewrite <- app_assoc.
Qed.

(** The upload loop at the first file that does not open. *)
Lemma upload_loop_first_failure (host : Host) (server : Server)
    (sv : SubmissionVars) (bucket_url : JSON) (files : list (string * string))
    (n : nat) (pf : string * string) (log : list Request) :
  files !! n = Some pf → read_lines host pf.1 = None →
  Forall (λ pf', is_Some (read_lines host pf'.1)) (take n files) →
  net_for_each (upload_body host server sv bucket_url) files log
  = (Raise (open_error host pf.1),
     log ++ upload_requests bucket_url (access_token sv) (take n files)).
Proof.
  revert n log. induction files as [|[path filename] files IH]; intros n log Hn Hnone Hall.
  - done.
  - destruct n as [|n]; simpl in Hn.
    + injection Hn as <-. simpl in Hnone.
      rewrite net_for_each_cons, upload_body_eq, Hnone. simpl. by rewrite app_nil_r.
    + simpl in Hall. apply Forall_cons in Hall as [[lines Hopen] Hall].
      simpl in Hopen.
      rewrite net_for_each_cons, upload_body_eq, Hopen, (IH n) by done. simpl.
      by rewrite <- app_assoc.
Qed.

Lemma do_zenodo_submission_eq (host : Host) (server : Server) (sv : SubmissionVars)
    (creators : list (gmap string cell)) :
  do_zenodo_submission host server sv creators []
  = match deposition_ids (server [] (PostDeposition (access_token sv))) with
    | Raise e => (Raise e, [PostDeposition (access_token sv)])
    | Ok ids =>
        match net_for_each (upload_body host server sv ids.1) (upload_pairs host sv)
                [PostDeposition (access_token sv)] with
        | (Raise e, log) => (Raise e, log)
        | (Ok _, log) =>
            let req := PutMetaData ids.2 (_make_meta_data_object sv creators)
                                   (access_token sv) in
            (deposition_link (server log req), log ++ [req])
        end
    end.
Proof.
  unfold do_zenodo_submission. unfold net_bind at 1.
  rewrite create_blank_deposition_eq. simpl app.
  destruct (deposition_ids _) as [ids|e]; [| done].
  unfold net_bind at 1.
  assert ((match data_file_path_list sv with
           | [] => net_ret ()
           | _ :: _ =>
               _upload_files_to_deposition host server sv ids.1
                 (_prepare_filenames_and_paths host sv)
           end) [PostDeposition (access_token sv)]
          = net_for_each (upload_body host server sv ids.1) (upload_pairs host sv)
              [PostDeposition (access_token sv)]) as ->.
  { unfold upload_pairs, _upload_files_to_deposition.
    by destruct (data_file_path_list sv). }
  destruct (net_for_each _ _ _) as [[u|e] log]; [| done].
  unfold net_bind, _associate_meta_data, net_send, net_lift, deposition_link. done.
Qed.

Lemma fields_get_Raise (fields : list (string * JSON)) (key : string) (e : exn) :
  fields_get fields key = Raise e → e = KeyError key.
Proof.
  induction fields as [|[k v] fields IH]; simpl; [by intros [= <-] |].
  by destruct (String.eqb k key).
Qed.

Lemma json_item_Raise (j : JSON) (key : string) (e : exn) :
  json_item j key = Raise e → e = TypeError ∨ e = KeyError key.
Proof.
  destruct j; simpl; try (intros [= <-]; tauto).
  intros ->%fields_get_Raise. by right.
Qed.

Lemma json_item_Ok (j : JSON) (key : string) (v : JSON) :
  json_item j key = Ok v ↔ ∃ fields, j = JObj fields ∧ fields_get fields key = Ok v.
Proof.
  split.
  - destruct j; simpl; try done. eauto.
  - by intros (fields & -> & Hv).
Qed.

Lemma deposition_ids_Ok (r : Response) (bucket_url deposition_id : JSON) :
  deposition_ids r = Ok (bucket_url, deposition_id)
  ↔ has_deposition_ids r bucket_url deposition_id.
Proof.
  unfold deposition_ids, has_deposition_ids, response_json. split.
  - destruct (json_body r) as [j|]; [| done]. cbn [mbind result_bind].
    intros (links & Hlinks & Hrest)%bind_Ok_inv.
    apply bind_Ok_inv in Hrest as (b & Hb & Hrest).
    apply bind_Ok_inv in Hrest as (i & Hi & [= <- <-]).
    apply json_item_Ok in Hlinks as (fields & -> & Hlinks).
    apply json_item_Ok in Hb as (lfields & -> & Hb).
    apply json_item_Ok in Hi as (fields' & [= <-] & Hi).
    exists fields, lfields. done.
  - intros (fields & links & -> & Hlinks & Hb & Hi). simpl.
    rewrite Hlinks. simpl. rewrite Hb. simpl. by rewrite Hi.
Qed.

Lemma deposition_link_Ok (r : Response) (link : JSON) :
  deposition_link r = Ok link ↔ has_deposition_link r link.
Proof.
  unfold deposition_link, has_deposition_link, response_json. split.
  - destruct (json_body r) as [j|]; [| done]. cbn [mbind result_bind].
    intros (links & Hlinks & Hl)%bind_Ok_inv.
    apply json_item_Ok in Hlinks as (fields & -> & Hlinks).
    apply json_item_Ok in Hl as (lfields & -> & Hl).
    exists fields, lfields. done.
  - intros (fields & links & -> & Hlinks & Hl). simpl.
    rewrite Hlinks. simpl. done.
Qed.

Lemma deposition_ids_Raise (r : Response) (e : exn) :
  deposition_ids r = Raise e → reading_error r e.
Proof.
  unfold deposition_ids, reading_error, response_json.
  destruct (json_body r) as [j|]; [| intros [= <-]; tauto]. cbn [mbind result_bind].
  destruct (json_item j "links") as [links|e2] eqn:H2; simpl;
    [| intros [= <-]; apply json_item_Raise in H2; tauto].
  destruct (json_item links "bucket") as [b|e3] eqn:H3; simpl;
    [| intros [= <-]; apply json_item_Raise in H3; tauto].
  destruct (json_item j "id") as [i|e4] eqn:H4; simpl; [done |].
  intros [= <-]. apply json_item_Raise in H4. tauto.
Qed.

Lemma deposition_link_Raise (r : Response) (e : exn) :
  deposition_link r = Raise e → reading_error r e.
Proof.
  unfold deposition_link, reading_error, response_json.
  destruct (json_body r) as [j|]; [| intros [= <-]; tauto]. cbn [mbind result_bind].
  destruct (json_item j "links") as [links|e2] eqn:H2; simpl;
    [| intros [= <-]; apply json_item_Raise in H2; tauto].
  intros H3. apply json_item_Raise in H3. tauto.
Qed.

Lemma deposition_ids_body (r1 r2 : Response) :
  json_body r1 = json_body r2 → text r1 = text r2 →
  deposition_ids r1 = deposition_ids r2.
Proof. intros Hb Ht. unfold deposition_ids, response_json. by rewrite Hb, Ht. Qed.

Lemma deposition_link_body (r1 r2 : Response) :
  json_body r1 = json_body r2 → text r1 = text r2 →
  deposition_link r1 = deposition_link r2.
Proof. intros Hb Ht. unfold deposition_link, response_json. by rewrite Hb, Ht. Qed.

(** C5, as the code has it.  No request is sent twice and no status is
    read.  The creation request is sent; if the body of its response is
    not a JSON object with 'links'/'bucket' and 'id', the run ends there,
    with the error of that reading, and otherwise goes on, whatever the
    status.  Then one upload per data file is sent, in order; the answers
    to the uploads are not read at all, and only a file that cannot be
    opened ends the run, with the error of [open].  Then the metadata
    request is sent, once, and the run returns 'links'/'html' of the body
    of its response or ends with the error of that reading.  The errors of
    a reading are a decode error that holds the text of the body, a key
    error or a type error; none holds the status.  So two services that
    differ only in their statuses and in their answers to the uploads give
    the same run. *)
Theorem submission_never_inspects_status (host : Host) (server : Server)
    (sv : SubmissionVars) (creators : list (gmap string cell)) :
  let create := PostDeposition (access_token sv) in
  let data := _make_meta_data_object sv creators in
  (∀ e, deposition_ids (server [] create) = Raise e →
        do_zenodo_submission host server sv creators [] = (Raise e, [create]) ∧
        reading_error (server [] create) e) ∧
  (∀ bucket_url deposition_id,
     deposition_ids (server [] create) = Ok (bucket_url, deposition_id) →
     let uploads :=
       upload_requests bucket_url (access_token sv) (upload_pairs host sv) in
     let meta := PutMetaData deposition_id data (access_token sv) in
     (∀ n pf,
        upload_pairs host sv !! n = Some pf → read_lines host pf.1 = None →
        Forall (λ pf', is_Some (read_lines host pf'.1))
               (take n (upload_pairs host sv)) →
        do_zenodo_submission host server sv creators []
        = (Raise (open_error host pf.1), create :: take n uploads)) ∧
     (Forall (λ pf, is_Some (read_lines host pf.1)) (upload_pairs host sv) →
      do_zenodo_submission host server sv creators []
      = (deposition_link (server (create :: uploads) meta),
         create :: uploads ++ [meta]))) ∧
  (∀ r bucket_url deposition_id,
     deposition_ids r = Ok (bucket_url, deposition_id)
     ↔ has_deposition_ids r bucket_url deposition_id) ∧
  (∀ r link, deposition_link r = Ok link ↔ has_deposition_link r link) ∧
  (∀ r e, deposition_link r = Raise e → reading_error r e) ∧
  (∀ server', same_bodies_but_uploads server server' →
     do_zenodo_submission host server sv creators []
     = do_zenodo_submission host server' sv creators []).
Proof.
  intros create data.
  split; [| split; [| split; [| split; [| split]]]].
  - intros e He. rewrite do_zenodo_submission_eq. fold create. rewrite He.
    split; [done | by apply deposition_ids_Raise].
  - intros bucket_url deposition_id Hids uploads meta. split.
    + intros n pf Hn Hnone Hall. rewrite do_zenodo_submission_eq. fold create.
      rewrite Hids. cbn [fst snd].
      rewrite (upload_loop_first_failure _ _ _ _ _ n pf) by done.
      unfold uploads, upload_requests. by rewrite fmap_take.
    + intros Hall. rewrite do_zenodo_submission_eq. fold create.
      rewrite Hids. cbn [fst snd].
      by rewrite upload_loop_all_open.
  - apply deposition_ids_Ok.
  - apply deposition_link_Ok.
  - apply deposition_link_Raise.
  - intros server' Hsame. rewrite !do_zenodo_submission_eq. fold create.
    assert (∀ log req,
              (∀ b f p t, req ≠ PutFile b f p t) →
              deposition_ids (server log req) = deposition_ids (server' log req) ∧
              deposition_link (server log req) = deposition_link (server' log req))
      as Hread.
    { intros log req Hreq. destruct (Hsame log req Hreq) as [Hb Ht].
      split; [by apply deposition_ids_body | by apply deposition_link_body]. }
    rewrite (proj1 (Hread [] create (λ b f p t, ltac:(done)))).
    destruct (deposition_ids (server' [] create)) as [ids|e]; [| done].
    destruct (upload_loop_eq host server' sv ids.1 (upload_pairs host sv) [create])
      as (n & _ & Hany & _).
    rewrite (Hany server).
    destruct (net_for_each _ _ _) as [[u|e] log]; [| done].
    cbv zeta.
    by rewrite (proj2 (Hread log (PutMetaData ids.2 (_make_meta_data_object sv creators)
                                    (access_token sv)) (λ b f p t, ltac:(done)))).
Qed.

Lemma same_bodies_failing_healthy :
  same_bodies_but_uploads failing_upload_server healthy_server.
Proof. intros log req Hreq. by destruct req. Qed.

Lemma submission_never_inspects_status_witness :
  do_zenodo_submission sample_host failing_upload_server sample_submission [] []
  = (Ok (JStr "https://zenodo.org/deposit/7"),
     [ PostDeposition "secret";
       PutFile (JStr "https://zenodo.org/api/files/b7") "a.txt" "a.txt" "secret";
       PutMetaData (JNum 7) (_make_meta_data_object sample_submission []) "secret" ]) ∧
  do_zenodo_submission sample_host failing_upload_server sample_submission [] []
  = do_zenodo_submission sample_host healthy_server sample_submission [] [].
Proof.
  destruct (submission_never_inspects_status sample_host failing_upload_server
              sample_submission [])
    as (_ & Hgo & _ & _ & _ & Hsame).
  split.
  - destruct (Hgo (JStr "https://zenodo.org/api/files/b7") (JNum 7)) as [_ Hall].
    + reflexivity.
    + apply Hall. repeat constructor. by eexists.
  - apply Hsame. exact same_bodies_failing_healthy.
Defined.

(** An upload answered with status 500 does not fail the run: the three
    requests go out, the link is returned and no exception is raised.  A
    creation answered with status 401 fails the run with the [KeyError] of
    the missing 'links' field, which holds neither the status nor the
    body. *)
Example non_success_runs :
  status_code (failing_upload_server
                 [PostDeposition "secret"]
                 (PutFile (JStr "https://zenodo.org/api/files/b7") "a.txt" "a.txt"
                          "secret")) = 500%Z ∧
  do_zenodo_submission sample_host failing_upload_server sample_submission [] []
  = (Ok (JStr "https://zenodo.org/deposit/7"),
     [ PostDeposition "secret";
       PutFile (JStr "https://zenodo.org/api/files/b7") "a.txt" "a.txt" "secret";
       PutMetaData (JNum 7) (_make_meta_data_object sample_submission []) "secret" ]) ∧
  status_code (unauthorized_server [] (PostDeposition "secret")) = 401%Z ∧
  do_zenodo_submission sample_host unauthorized_server sample_submission [] []
  = (Raise (KeyError "links"), [PostDeposition "secret"]).
Proof. repeat split; reflexivity. Qed.

(** C5 as stated fails: here an upload is answered with status 500 and the
    run does not fail. *)
Lemma non_success_response_not_surfaced :
  ¬ fails_on_non_success sample_host failing_upload_server sample_submission [].
Proof.
  intros Hclaim.
  destruct (Hclaim [PostDeposition "secret"]
              (PutFile (JStr "https://zenodo.org/api/files/b7") "a.txt" "a.txt" "secret")
              [PutMetaData (JNum 7) (_make_meta_data_object sample_submission [])
                           "secret"]) as [e He].
  - reflexivity.
  - unfold non_success. simpl. lia.
  - discriminate He.
Qed.

(** * Further properties *)

(** ** Superscripts of numbers that are not positive *)

(** X1. [_superscript] has no entry for a sign: the rendering of a negative
    number starts with '-', and the lookup of that character raises
    [KeyError] before any digit is converted. *)
Theorem superscript_negative (n : Z) :
  (n < 0)%Z → _superscript n = Raise (KeyError "-").
Proof.
  intros Hn. destruct n as [|p|p]; try lia.
  unfold _superscript, str_int. simpl Z.to_int. cbv zeta.
  change (NilZero.string_of_int (Decimal.Neg (Pos.to_uint p)))
    with (String "-" (NilZero.string_of_uint (Pos.to_uint p))).
  reflexivity.
Qed.

Lemma superscript_negative_witness : _superscript (-42) = Raise (KeyError "-").
Proof. apply (superscript_negative (-42)). lia. Defined.

(** ** The data file paths that pass the check *)

Lemma concat_cons_nonempty (sep x : string) (xs : list string) :
  xs ≠ [] → String.concat sep (x :: xs) = x +:+ sep +:+ String.concat sep xs.
Proof. by destruct xs. Qed.

Lemma concat_cons_char (sep : string) (c : ascii) (x : string) (xs : list string) :
  String.concat sep (String c x :: xs) = String c (String.concat sep (x :: xs)).
Proof. by destruct xs. Qed.

(** Joining what [split(',')] gives, with commas, gives the string back. *)
Lemma join_split_comma (s : string) : join "," (split_comma s) = s.
Proof.
  unfold join. induction s as [|c s IH]; [done |].
  simpl split_comma. destruct (Ascii.eqb c ",") eqn:Hc.
  - apply Ascii.eqb_eq in Hc as ->.
    rewrite concat_cons_nonempty by apply split_comma_nonempty.
    by rewrite IH.
  - pose proof (split_comma_nonempty s) as Hne.
    destruct (split_comma s) as [|part parts]; [done |].
    by rewrite concat_cons_char, IH.
Qed.

Lemma no_file_nil (host : Host) (paths : list string) :
  no_file host paths = [] → Forall (λ p, isfile host p = true) paths.
Proof.
  unfold no_file. induction paths as [|p paths IH]; simpl; [constructor |].
  destruct (isfile host p) eqn:Hp; simpl; [| done].
  intros Hrest. constructor; [done | by apply IH].
Qed.

(** X2. What [_get_and_check_datafile_paths] returns, when it returns:
    every path of the list is a file; the list is empty exactly when no
    paths were given (flag absent or empty); otherwise it is the split of
    the argument, so that joining it with commas gives the argument back,
    empty parts included. *)
Theorem checked_datafile_paths (host : Host) (args : Args) (paths : list string) :
  _get_and_check_datafile_paths host args = Ok paths →
  Forall (λ p, isfile host p = true) paths ∧
  match data_file_paths args with
  | None | Some EmptyString => paths = []
  | Some given => paths = split_comma given ∧ paths ≠ [] ∧ join "," paths = given
  end.
Proof.
  unfold _get_and_check_datafile_paths.
  destruct (data_file_paths args) as [[|c given]|]; [by intros [= <-] | | by intros [= <-]].
  pose proof (split_comma_nonempty (String c given)) as Hne.
  destruct (split_comma (String c given)) as [|p ps] eqn:Hsplit; [done |].
  destruct (no_file host (p :: ps)) as [|m ms] eqn:Hmissing; [| done].
  intros [= <-]. split; [by apply no_file_nil |].
  split; [done |]. split; [done |]. rewrite <- Hsplit. apply join_split_comma.
Qed.

Lemma checked_datafile_paths_witness :
  Forall (λ p, isfile sample_host p = true) ["a.txt"; "a.txt"] ∧
  ["a.txt"; "a.txt"] = split_comma "a.txt,a.txt" ∧
  ["a.txt"; "a.txt"] ≠ [] ∧ join "," ["a.txt"; "a.txt"] = "a.txt,a.txt".
Proof.
  apply (checked_datafile_paths sample_host
           {| excel_path := "authors.xlsx"; target_sheet_name := "Sheet1";
              output_dir_path := "out"; submission := true;
              access_token_path := None; data_file_paths := Some "a.txt,a.txt";
              meta_title := None; meta_description := None; references := None |}).
  reflexivity.
Defined.

(** An empty part of the argument is checked like a path, and is no file
    on a host where the empty path is none. *)
Example empty_part_is_missing :
  _get_and_check_datafile_paths sample_host
    {| excel_path := "authors.xlsx"; target_sheet_name := "Sheet1";
       output_dir_path := "out"; submission := true;
       access_token_path := None; data_file_paths := Some "a.txt,";
       meta_title := None; meta_description := None; references := None |}
  = Raise (FileNotFoundError (missing_files_message [""])).
Proof. reflexivity. Qed.

(** ** The submission variables *)

(** X3. In [_setup_submission_vars] the data files are checked before the
    title: once the check passes, a title that is absent or empty raises
    [RuntimeError], whatever the other flags; and when the check fails, its
    error is the one raised, title or not. *)
Theorem title_checked_after_files (host : Host) (args : Args) :
  (∀ paths, _get_and_check_datafile_paths host args = Ok paths →
            meta_title args = None ∨ meta_title args = Some EmptyString →
            _setup_submission_vars host args
            = Raise (RuntimeError "Please provide a valid title")) ∧
  (∀ e, _get_and_check_datafile_paths host args = Raise e →
        _setup_submission_vars host args = Raise e).
Proof.
  split.
  - intros paths Hcheck Htitle. unfold _setup_submission_vars. rewrite Hcheck.
    by destruct Htitle as [-> | ->].
  - intros e Hcheck. unfold _setup_submission_vars. by rewrite Hcheck.
Qed.

Lemma title_checked_after_files_witness :
  _setup_submission_vars sample_host
    {| excel_path := "authors.xlsx"; target_sheet_name := "Sheet1";
       output_dir_path := "out"; submission := true;
       access_token_path := None; data_file_paths := Some "a.txt";
       meta_title := None; meta_description := None; references := None |}
  = Raise (RuntimeError "Please provide a valid title").
Proof.
  apply (proj1 (title_checked_after_files sample_host _) ["a.txt"]).
  - reflexivity.
  - by left.
Defined.

(** ** The master table and its two patches *)

Lemma index_set_at_affiliation (df : frame InfoRow) (label : string) (value : cell) :
  index (set_at_affiliation df label value)
  = index df ++ (if decide (label ∈ index df) then [] else [label]).
Proof.
  unfold index. induction df as [|[k r] df IH]; [done |].
  cbn [set_at_affiliation]. destruct (String.eqb k label) eqn:Hk.
  - apply String.eqb_eq in Hk as ->. rewrite !fmap_cons. cbn [fst].
    rewrite decide_True by left. by rewrite app_nil_r.
  - apply String.eqb_neq in Hk. rewrite !fmap_cons, IH. cbn [fst].
    rewrite <- app_comm_cons. f_equal. f_equal.
    destruct (decide (label ∈ df.*1)) as [Hin | Hnot].
    + rewrite decide_True; [done | by right].
    + rewrite decide_False; [done |]. rewrite not_elem_of_cons. done.
Qed.

Lemma index_set_loc (df : frame InfoRow) (label : string) (row : InfoRow) :
  index (set_loc df label row)
  = index df ++ (if decide (label ∈ index df) then [] else [label]).
Proof.
  unfold index. induction df as [|[k r] df IH]; [done |].
  cbn [set_loc]. destruct (String.eqb k label) eqn:Hk.
  - apply String.eqb_eq in Hk as ->. rewrite !fmap_cons. cbn [fst].
    rewrite decide_True by left. by rewrite app_nil_r.
  - apply String.eqb_neq in Hk. rewrite !fmap_cons, IH. cbn [fst].
    rewrite <- app_comm_cons. f_equal. f_equal.
    destruct (decide (label ∈ df.*1)) as [Hin | Hnot].
    + rewrite decide_True; [done | by right].
    + rewrite decide_False; [done |]. rewrite not_elem_of_cons. done.
Qed.

Lemma df_row_set_at_affiliation_ne (df : frame InfoRow) (label k : string)
    (value : cell) :
  k ≠ label → df_row (set_at_affiliation df label value) k = df_row df k.
Proof.
  intros Hne. induction df as [|[k' r] df IH]; simpl.
  - by rewrite (proj2 (String.eqb_neq label k)).
  - destruct (String.eqb k' label) eqn:Hk; simpl; [| by rewrite IH].
    apply String.eqb_eq in Hk as ->. by rewrite (proj2 (String.eqb_neq label k)).
Qed.

Lemma df_row_set_at_affiliation (df : frame InfoRow) (label : string) (value : cell) :
  ∃ r, df_row (set_at_affiliation df label value) label = Ok r ∧ affiliation r = value.
Proof.
  induction df as [|[k r] df IH]; simpl.
  - rewrite String.eqb_refl. eauto.
  - destruct (String.eqb k label) eqn:Hk; simpl; rewrite Hk; [eauto | done].
Qed.

Lemma df_row_set_loc_ne (df : frame InfoRow) (label k : string) (row : InfoRow) :
  k ≠ label → df_row (set_loc df label row) k = df_row df k.
Proof.
  intros Hne. induction df as [|[k' r] df IH]; simpl.
  - by rewrite (proj2 (String.eqb_neq label k)).
  - destruct (String.eqb k' label) eqn:Hk; simpl; [| by rewrite IH].
    apply String.eqb_eq in Hk as ->. by rewrite (proj2 (String.eqb_neq label k)).
Qed.

Lemma NoDup_snoc_fresh (l : list string) (x : string) :
  NoDup l → NoDup (l ++ (if decide (x ∈ l) then [] else [x])).
Proof.
  intros Hnd. destruct (decide (x ∈ l)) as [Hin | Hnot].
  - by rewrite app_nil_r.
  - apply NoDup_app. split; [done |]. split; [| apply NoDup_singleton].
    intros y Hy ->%list_elem_of_singleton. done.
Qed.

Lemma make_author_info_df_inv (template : list InfoRow) (df : frame InfoRow) :
  _make_author_info_df template = Ok df →
  ∃ name_index,
    info_index template = Ok name_index ∧ NoDup name_index ∧
    df = set_loc (set_at_affiliation (zip name_index template) "PogoreutzC"
                    Pogoreutz_affiliation) "ClayssenQ" Clayssen.
Proof.
  unfold _make_author_info_df. intros (name_index & Hidx & Hrest)%bind_Ok_inv.
  apply bind_Ok_inv in Hrest as (u & Huniq%assert_unique_Ok & [= <-]).
  exists name_index. done.
Qed.

(** X4. The table that [_make_author_info_df] returns: its labels are the
    keys of the sheet in sheet order, followed by PogoreutzC and ClayssenQ
    where the sheet lacks them, and no label is repeated; the row of
    ClayssenQ is the fixed row, the affiliation of PogoreutzC is the fixed
    affiliation, and every other label reads the row the sheet has for
    it. *)
Theorem author_info_df_patched (template : list InfoRow) (df : frame InfoRow) :
  _make_author_info_df template = Ok df →
  ∃ name_index,
    info_index template = Ok name_index ∧
    index df = name_index
               ++ filter (λ label, label ∉ name_index) ["PogoreutzC"; "ClayssenQ"] ∧
    NoDup (index df) ∧
    df_row df "ClayssenQ" = Ok Clayssen ∧
    df_at df "PogoreutzC" affiliation = Ok Pogoreutz_affiliation ∧
    (∀ k, k ≠ "PogoreutzC" → k ≠ "ClayssenQ" →
          df_row df k = df_row (zip name_index template) k).
Proof.
  intros (name_index & Hidx & Hnd & ->)%make_author_info_df_inv.
  exists name_index. split; [done |].
  assert (index (zip name_index template) = name_index) as Hzip.
  { unfold index. apply fst_zip.
    unfold info_index in Hidx. apply comprehension_length in Hidx. lia. }
  assert (index (set_loc (set_at_affiliation (zip name_index template) "PogoreutzC"
                            Pogoreutz_affiliation) "ClayssenQ" Clayssen)
          = (name_index ++ (if decide ("PogoreutzC" ∈ name_index) then []
                            else ["PogoreutzC"]))
            ++ (if decide ("ClayssenQ" ∈ name_index) then [] else ["ClayssenQ"]))
    as Hindex.
  { rewrite index_set_loc, index_set_at_affiliation, Hzip. f_equal.
    destruct (decide ("ClayssenQ" ∈ name_index)) as [Hin | Hnot].
    - rewrite decide_True; [done |]. apply elem_of_app. by left.
    - rewrite decide_False; [done |]. rewrite not_elem_of_app. split; [done |].
      destruct (decide ("PogoreutzC" ∈ name_index)).
      + apply not_elem_of_nil.
      + by intros [=]%list_elem_of_singleton. }
  split; [| split; [| split; [| split]]].
  - rewrite Hindex, <- app_assoc. f_equal.
    destruct (decide ("PogoreutzC" ∈ name_index)) as [HP | HP],
             (decide ("ClayssenQ" ∈ name_index)) as [HC | HC].
    + rewrite (filter_cons_False _ "PogoreutzC"); [| intros Hn; by apply Hn].
      rewrite (filter_cons_False _ "ClayssenQ"); [done | intros Hn; by apply Hn].
    + rewrite (filter_cons_False _ "PogoreutzC"); [| intros Hn; by apply Hn].
      rewrite (filter_cons_True _ "ClayssenQ"); done.
    + rewrite (filter_cons_True _ "PogoreutzC"); [| done].
      rewrite (filter_cons_False _ "ClayssenQ"); [done | intros Hn; by apply Hn].
    + rewrite (filter_cons_True _ "PogoreutzC"); [| done].
      rewrite (filter_cons_True _ "ClayssenQ"); done.
  - rewrite index_set_loc. apply NoDup_snoc_fresh.
    rewrite index_set_at_affiliation. apply NoDup_snoc_fresh. by rewrite Hzip.
  - apply df_row_set_loc.
  - unfold df_at. rewrite df_row_set_loc_ne by done.
    destruct (df_row_set_at_affiliation (zip name_index template) "PogoreutzC"
                Pogoreutz_affiliation) as (r & -> & Hr).
    simpl. by rewrite Hr.
  - intros k Hp Hc.
    by rewrite df_row_set_loc_ne, df_row_set_at_affiliation_ne.
Qed.

Lemma author_info_df_patched_witness :
  ∃ name_index,
    info_index sample_template = Ok name_index ∧
    index sample_patched_df
    = name_index
      ++ filter (λ label, label ∉ name_index) ["PogoreutzC"; "ClayssenQ"] ∧
    NoDup (index sample_patched_df) ∧
    df_row sample_patched_df "ClayssenQ" = Ok Clayssen ∧
    df_at sample_patched_df "PogoreutzC" affiliation = Ok Pogoreutz_affiliation ∧
    (∀ k, k ≠ "PogoreutzC" → k ≠ "ClayssenQ" →
          df_row sample_patched_df k = df_row (zip name_index sample_template) k).
Proof.
  apply (author_info_df_patched sample_template sample_patched_df). reflexivity.
Defined.

Lemma assert_unique_dup (l : list string) :
  ¬ NoDup l → assert_unique l = Raise AssertionError.
Proof.
  intros Hdup. destruct (assert_unique l) as [u|e] eqn:Ha.
  - by apply assert_unique_Ok in Ha.
  - unfold assert_unique, py_assert in Ha.
    destruct (length l =? size (list_to_set l : gset string)); [done |].
    by injection Ha as <-.
Qed.

(** X5. Two rows of the 'Template' sheet with the same key stop
    [_make_author_info_df] at its assertion: when the keys of all rows can
    be built and some key occurs twice, the result is [AssertionError] and
    no table is returned. *)
Theorem author_info_df_duplicate_key (template : list InfoRow)
    (name_index : list string) :
  info_index template = Ok name_index → ¬ NoDup name_index →
  _make_author_info_df template = Raise AssertionError.
Proof.
  intros Hidx Hdup. unfold _make_author_info_df. unfold info_index in Hidx.
  rewrite Hidx. cbn [mbind result_bind]. by rewrite assert_unique_dup.
Qed.

Lemma author_info_df_duplicate_key_witness :
  _make_author_info_df [ info_row "Smith" "John" "J." "Lab1" "0000-0001";
                         info_row "Smith" "Jane" "J." "Lab2" "0000-0002" ]
  = Raise AssertionError.
Proof.
  apply (author_info_df_duplicate_key _ ["SmithJ"; "SmithJ"]).
  - reflexivity.
  - by apply (bool_decide_unpack _).
Defined.

(** ** More on the author order *)

(** X6. When [_make_author_order] returns: with the keys of the filtered
    rows built and unique, an order is returned exactly when every filtered
    row is weighted in an override category, or has both override weights
    equal to zero and is weighted in an ordinary category; otherwise the
    final assertion fails. *)
Theorem author_order_returned_iff (sheet : list MemberRow) (df : frame OrderRow) :
  order_frame sheet = Ok df → NoDup (index df) →
  ((∃ order, _make_author_order sheet = Ok order)
   ↔ ∀ k r, (k, r) ∈ df → placeable r) ∧
  ((¬ ∀ k r, (k, r) ∈ df → placeable r) →
   _make_author_order sheet = Raise AssertionError).
Proof.
  intros Hdf Hnd.
  destruct (passes_from_nil df author_categories Hnd)
    as (order & Hloop & Hnd' & Hsub & Hmem).
  assert ((∃ order', _make_author_order sheet = Ok order')
          → ∀ k r, (k, r) ∈ df → placeable r) as Hto.
  { intros [order' Horder'] k r Hkr.
    destruct (make_author_order_inv _ _ Horder') as (df' & Hdf' & _ & Hloop' & Hlen).
    rewrite Hdf in Hdf'. injection Hdf' as <-.
    assert (k ∈ order') as Hin.
    { apply (every_author_in_order df order' Hnd Hloop' Hlen).
      apply list_elem_of_fmap. by exists (k, r). }
    unfold order_loop in Hloop'. rewrite Hloop in Hloop'. injection Hloop' as <-.
    apply (Hmem k r Hkr) in Hin as (c & _ & He). apply eligible_placeable. eauto. }
  assert (_make_author_order sheet = Ok order
          ∨ _make_author_order sheet = Raise AssertionError) as Hcases.
  { rewrite (make_author_order_eq _ _ Hdf Hnd). unfold order_loop. rewrite Hloop.
    cbn [mbind result_bind]. unfold py_assert.
    destruct (length order =? length (index df)); [by left | by right]. }
  split; [split; [done |] |].
  - intros Hall. exists order.
    rewrite (make_author_order_eq _ _ Hdf Hnd). unfold order_loop. rewrite Hloop.
    cbn [mbind result_bind].
    assert (∀ k, k ∈ index df → k ∈ order) as Hsup.
    { intros k ([k' r] & -> & Hkr)%list_elem_of_fmap. simpl.
      apply (Hmem k' r Hkr).
      destruct (proj2 (eligible_placeable r) (Hall k' r Hkr)) as [c He].
      exists c. split; [by destruct c; apply (bool_decide_unpack _) | done]. }
    assert (order ≡ₚ index df) as Hperm.
    { apply submseteq_length_Permutation; [by apply NoDup_submseteq |].
      apply submseteq_length. by apply NoDup_submseteq. }
    by rewrite (Permutation_length Hperm), Nat.eqb_refl.
  - intros Hnot. destruct Hcases as [Hok | Hfail]; [| done].
    exfalso. apply Hnot. apply Hto. eauto.
Qed.

Lemma author_order_returned_iff_witness :
  ((∃ order, _make_author_order sample_sheet = Ok order)
   ↔ ∀ k r, (k, r) ∈ sample_order_frame → placeable r) ∧
  ((¬ ∀ k r, (k, r) ∈ sample_order_frame → placeable r) →
   _make_author_order sample_sheet = Raise AssertionError).
Proof.
  apply (author_order_returned_iff sample_sheet sample_order_frame).
  - reflexivity.
  - by apply (bool_decide_unpack _).
Defined.

(** The keys a pass appends are the group of its category. *)
Lemma pass_segment_group (df : frame OrderRow) (c : Category) (before : list string) :
  NoDup (index df) →
  for_each (category_pass df) (earlier_categories c) [] = Ok before →
  pass_segment df c before = category_group df c.
Proof.
  intros Hnd Hbefore.
  destruct (passes_from_nil df (earlier_categories c) Hnd)
    as (before' & Hrun & _ & _ & Hmem).
  rewrite Hbefore in Hrun. injection Hrun as <-.
  unfold pass_segment, category_group. f_equal.
  apply filter_ext_in. intros [k r] Hkr. simpl. unfold placement.
  rewrite (Hmem k r Hkr), Forall_forall. split.
  - intros [Hnot He]. split; [done |]. intros c' Hc' He'. apply Hnot. eauto.
  - intros [He Hfirst]. split; [| done]. intros (c' & Hc' & He'). by apply (Hfirst c').
Qed.

Lemma passes_groups (df : frame OrderRow) (cs rest : list Category) :
  NoDup (index df) → author_categories = cs ++ rest →
  for_each (category_pass df) cs [] = Ok (concat (category_group df <$> cs)).
Proof.
  intros Hnd. revert rest. induction cs as [|c cs IH] using rev_ind; intros rest Hsplit.
  - done.
  - rewrite <- app_assoc in Hsplit. simpl in Hsplit.
    rewrite for_each_app, (IH _ Hsplit). cbn [mbind result_bind for_each].
    rewrite (category_pass_eq _ _ _ Hnd). cbn [mbind result_bind].
    rewrite fmap_app, concat_app. simpl. rewrite app_nil_r.
    rewrite (pass_segment_group df c); [done | done |].
    rewrite <- (prefix_earlier _ _ _ Hsplit). by apply (IH (c :: rest)).
Qed.

(** X7. The order in closed form.  The order that [_make_author_order]
    returns is the concatenation, over the six categories in priority
    order, of the group of each category: the keys of the rows whose first
    accepting pass is that of the category, in table order. *)
Theorem author_order_grouped (sheet : list MemberRow) (df : frame OrderRow)
    (order : list string) :
  order_frame sheet = Ok df → _make_author_order sheet = Ok order →
  order = category_group df FirstAuthor ++ category_group df Contrib1
          ++ category_group df Contrib2 ++ category_group df ConsortiumCoord
          ++ category_group df ScientificDirector ++ category_group df Contrib3.
Proof.
  intros Hdf (df' & Hdf' & Hnd & Hloop & _)%make_author_order_inv.
  rewrite Hdf in Hdf'. injection Hdf' as <-.
  unfold order_loop in Hloop.
  rewrite (passes_groups df author_categories [] Hnd) in Hloop
    by (by rewrite app_nil_r).
  injection Hloop as <-. simpl. by rewrite app_nil_r.
Qed.

Lemma author_order_grouped_witness :
  ["SmithJ"; "DoeA"; "LeeK"; "ClayssenQ"]
  = category_group sample_order_frame FirstAuthor
    ++ category_group sample_order_frame Contrib1
    ++ category_group sample_order_frame Contrib2
    ++ category_group sample_order_frame ConsortiumCoord
    ++ category_group sample_order_frame ScientificDirector
    ++ category_group sample_order_frame Contrib3.
Proof.
  apply (author_order_grouped sample_sheet sample_order_frame).
  - reflexivity.
  - vm_compute. reflexivity.
Defined.

Lemma filtered_rows_skip (l1 junk l2 : list MemberRow) :
  Forall (λ r, sum_positive r = false) junk →
  filtered_rows (l1 ++ junk ++ l2) = filtered_rows (l1 ++ l2).
Proof.
  intros Hjunk. unfold filtered_rows. rewrite !List.filter_app.
  assert (List.filter sum_positive junk = []) as ->; [| done].
  induction Hjunk as [|r junk Hr _ IH]; simpl; [done |]. by rewrite Hr.
Qed.

(** X8. The first assertion of [_make_author_order] is about the rows that
    pass the filter, and about them only.  Rows with a blank or non-positive
    sum, wherever they stand and whatever their names, change nothing: the
    result is that of the sheet without them.  With the keys of the
    filtered rows built, a key that two of them share stops the function at
    this assertion, before any author is ordered, and keys that are all
    different pass it: the result is then that of the loops and of the
    final assertion. *)
Theorem author_order_duplicate_key (l1 junk l2 : list MemberRow)
    (name_index : list string) :
  Forall (λ r, sum_positive r = false) junk →
  order_index (filtered_rows (l1 ++ l2)) = Ok name_index →
  _make_author_order (l1 ++ junk ++ l2) = _make_author_order (l1 ++ l2) ∧
  (¬ NoDup name_index →
   _make_author_order (l1 ++ junk ++ l2) = Raise AssertionError) ∧
  (NoDup name_index →
   _make_author_order (l1 ++ junk ++ l2)
   = (order ← order_loop (zip name_index (filtered_rows (l1 ++ l2)));
      _ ← py_assert (length order =? length name_index)%nat;
      Ok order)).
Proof.
  intros Hjunk Hidx.
  assert (_make_author_order (l1 ++ junk ++ l2) = _make_author_order (l1 ++ l2))
    as Hskip.
  { unfold _make_author_order. by rewrite (filtered_rows_skip _ _ _ Hjunk). }
  split; [done |]. rewrite Hskip.
  pose proof (comprehension_length _ _ _ Hidx) as Hlen.
  unfold _make_author_order. cbv zeta. rewrite Hidx. cbn [mbind result_bind].
  split.
  - intros Hdup. by rewrite assert_unique_dup.
  - intros Hnd. rewrite assert_unique_NoDup by done. cbn [mbind result_bind].
    unfold index. by rewrite fst_zip by lia.
Qed.

Lemma author_order_duplicate_key_witness :
  _make_author_order ([member_row "Smith" "John" 1 0 0 0 0 0 1]
                      ++ [member_row "Smith" "Jack" 0 1 0 0 0 0 0]
                      ++ [member_row "Smith" "Jane" 0 1 0 0 0 0 1])
  = Raise AssertionError ∧
  _make_author_order ([member_row "Smith" "John" 1 0 0 0 0 0 1]
                      ++ [member_row "Smith" "Jack" 0 1 0 0 0 0 0]
                      ++ [member_row "Doe" "Ann" 0 1 0 0 0 0 1])
  = _make_author_order ([member_row "Smith" "John" 1 0 0 0 0 0 1]
                        ++ [member_row "Doe" "Ann" 0 1 0 0 0 0 1]).
Proof.
  split.
  - destruct (author_order_duplicate_key
                [member_row "Smith" "John" 1 0 0 0 0 0 1]
                [member_row "Smith" "Jack" 0 1 0 0 0 0 0]
                [member_row "Smith" "Jane" 0 1 0 0 0 0 1] ["SmithJ"; "SmithJ"])
      as (_ & Hdup & _).
    + repeat constructor.
    + reflexivity.
    + apply Hdup. by apply (bool_decide_unpack _).
  - destruct (author_order_duplicate_key
                [member_row "Smith" "John" 1 0 0 0 0 0 1]
                [member_row "Smith" "Jack" 0 1 0 0 0 0 0]
                [member_row "Doe" "Ann" 0 1 0 0 0 0 1] ["SmithJ"; "DoeA"])
      as (Hskip & _).
    + repeat constructor.
    + reflexivity.
    + exact Hskip.
Defined.

(** A repeated key in a row that the filter drops is no obstacle. *)
Example duplicate_key_filtered_out :
  _make_author_order [ member_row "Smith" "John" 1 0 0 0 0 0 1;
                       member_row "Smith" "Jane" 0 1 0 0 0 0 0 ]
  = Ok ["SmithJ"].
Proof. vm_compute. reflexivity. Qed.

(** ** More on the affiliation registry *)

Lemma first_seen_length (l : list cell) : length (first_seen l) ≤ length l.
Proof.
  induction l as [|x l IH]; simpl; [done |].
  pose proof (length_filter (λ y, y ≠ x) (first_seen l)). lia.
Qed.

(** The loop over the authors, from any well-formed registry: the strings
    not yet listed are appended at their first occurrence. *)
Lemma affil_loop_first_seen (df : frame InfoRow) (order : list string)
    (st st' : Registry) :
  registry_wf st →
  for_each (affil_author_body df) order st = Ok st' →
  ∃ affils,
    affiliations_of df order = Ok affils ∧
    affiliation_list st'
    = affiliation_list st
      ++ filter (λ y, y ∉ affiliation_list st) (first_seen affils).
Proof.
  unfold affiliations_of.
  revert st. induction order as [|a order IH]; intros st Hwf Hrun.
  - injection Hrun as <-. exists []. split; [done |]. simpl. by rewrite app_nil_r.
  - rewrite for_each_cons in Hrun.
    apply bind_Ok_inv in Hrun as (st1 & Hbody & Hrest).
    destruct (affil_author_body_spec _ _ _ _ Hwf Hbody)
      as (s & n & Hs & Hwf1 & _ & _ & Hcase).
    destruct (IH st1 Hwf1 Hrest) as (affils & Haffils & Hlist).
    exists (s :: affils). split; [simpl; by rewrite Hs, Haffils |].
    rewrite Hlist. simpl first_seen.
    destruct Hcase as [(Hnew & _ & ->) | (Hseen & _ & ->)]; simpl affiliation_list.
    + rewrite (filter_cons_True _ s) by done.
      rewrite <- app_assoc. simpl. do 2 f_equal.
      rewrite list_filter_filter. apply list_filter_iff. intros y.
      rewrite not_elem_of_app, list_elem_of_singleton. tauto.
    + rewrite (filter_cons_False _ s) by (intros Hn; by apply Hn).
      f_equal. rewrite list_filter_filter. apply list_filter_iff. intros y.
      split; [| tauto]. intros Hy. split; [done |]. by intros ->.
Qed.

(** X9. The affiliation list in closed form: it is the list of the
    affiliation cells of the authors, in author order, cut down to the
    first occurrence of each string; so it repeats no string and is no
    longer than the author order. *)
Theorem affiliation_list_first_seen (df : frame InfoRow) (order : list string)
    (reg : Registry) :
  _make_affiliations_dicts df order = Ok reg →
  ∃ affils,
    affiliations_of df order = Ok affils ∧
    affiliation_list reg = first_seen affils ∧
    NoDup (affiliation_list reg) ∧
    length (affiliation_list reg) ≤ length order.
Proof.
  intros Hrun.
  destruct (affil_loop_first_seen df order empty_registry reg empty_registry_wf Hrun)
    as (affils & Haffils & Hlist).
  simpl in Hlist.
  assert (affiliation_list reg = first_seen affils) as Heq.
  { rewrite Hlist. clear Hlist. induction (first_seen affils) as [|y l IH]; [done |].
    rewrite filter_cons_True by apply not_elem_of_nil. by rewrite IH. }
  exists affils. split; [done |]. split; [done |].
  split; [apply (wf_nodup _ (make_affiliations_dicts_wf _ _ _ Hrun)) |].
  rewrite Heq. etrans; [apply first_seen_length |].
  unfold affiliations_of in Haffils. by rewrite (comprehension_length _ _ _ Haffils).
Qed.

Lemma affiliation_list_first_seen_witness :
  ∃ affils,
    affiliations_of sample_df sample_order = Ok affils ∧
    affiliation_list sample_registry = first_seen affils ∧
    NoDup (affiliation_list sample_registry) ∧
    length (affiliation_list sample_registry) ≤ length sample_order.
Proof.
  apply (affiliation_list_first_seen sample_df sample_order sample_registry).
  vm_compute. reflexivity.
Defined.

(** The numbers kept for an author are numbers of that author's string. *)
Lemma author_numbers_sound (df : frame InfoRow) (order : list string)
    (st st' : Registry) :
  registry_wf st →
  (∀ b n, n ∈ defaultdict_get (author_to_affil_num_list_dict st) b →
          ∃ s, df_at df b affiliation = Ok s ∧
               affil_str_to_affil_num_dict st !! s = Some n) →
  for_each (affil_author_body df) order st = Ok st' →
  ∀ b n, n ∈ defaultdict_get (author_to_affil_num_list_dict st') b →
         ∃ s, df_at df b affiliation = Ok s ∧
              affil_str_to_affil_num_dict st' !! s = Some n.
Proof.
  revert st. induction order as [|a order IH]; intros st Hwf Hsound Hrun.
  - by injection Hrun as <-.
  - rewrite for_each_cons in Hrun.
    apply bind_Ok_inv in Hrun as (st1 & Hbody & Hrest).
    destruct (affil_author_body_spec _ _ _ _ Hwf Hbody)
      as (s & n & Hs & Hwf1 & Hn & Hdict & _).
    destruct (affil_author_body_grows _ _ _ _ Hwf Hbody) as (_ & Hkeep & _).
    apply (IH st1 Hwf1); [| done].
    intros b m. rewrite Hdict.
    destruct (decide (a = b)) as [<- | Hne].
    + rewrite defaultdict_get_append.
      intros [Hm | ->%list_elem_of_singleton]%elem_of_app; [| eauto].
      destruct (Hsound a m Hm) as (t & Ht & Hm'). eauto.
    + rewrite defaultdict_get_append_ne by done.
      intros Hm. destruct (Hsound b m Hm) as (t & Ht & Hm'). eauto.
Qed.

(** X10. Every number kept for an author is the number of that author's own
    affiliation: an author with a number is an author of the order, the
    number lies between 1 and the length of the affiliation list, and the
    string at that place of the list is the author's affiliation cell. *)
Theorem author_numbers_name_own_affiliation (df : frame InfoRow)
    (order : list string) (reg : Registry) (a : string) (n : nat) :
  _make_affiliations_dicts df order = Ok reg →
  n ∈ defaultdict_get (author_to_affil_num_list_dict reg) a →
  a ∈ order ∧
  1 ≤ n ≤ length (affiliation_list reg) ∧
  ∃ s, df_at df a affiliation = Ok s ∧
       affiliation_list reg !! (n - 1) = Some s ∧
       affil_num_to_affil_str_dict reg !! n = Some s.
Proof.
  intros Hrun Hn.
  pose proof (make_affiliations_dicts_wf _ _ _ Hrun) as Hwf.
  split.
  - destruct (decide (a ∈ order)) as [? | Hnot]; [done |]. exfalso.
    destruct (affil_loop_invariant _ _ _ _ empty_registry_wf Hrun)
      as (_ & _ & _ & Hframe & _).
    unfold defaultdict_get in Hn. rewrite (Hframe a Hnot) in Hn. simpl in Hn.
    rewrite lookup_empty in Hn. by apply not_elem_of_nil in Hn.
  - destruct (author_numbers_sound df order empty_registry reg empty_registry_wf)
      with (b := a) (n := n) as (s & Hs & Hnum); try done.
    { intros b m Hm. unfold defaultdict_get in Hm. simpl in Hm.
      rewrite lookup_empty in Hm. by apply not_elem_of_nil in Hm. }
    pose proof Hnum as (i & -> & Hi)%(wf_str_to_num _ Hwf).
    split; [split; [lia | by apply lookup_lt_Some in Hi] |].
    exists s. simpl. rewrite Nat.sub_0_r.
    split; [done |]. split; [done |]. apply (wf_num_to_str _ Hwf). eauto.
Qed.

Lemma author_numbers_name_own_affiliation_witness :
  "DoeA" ∈ sample_order ∧
  1 ≤ 2 ≤ length (affiliation_list sample_registry) ∧
  ∃ s, df_at sample_df "DoeA" affiliation = Ok s ∧
       affiliation_list sample_registry !! (2 - 1) = Some s ∧
       affil_num_to_affil_str_dict sample_registry !! 2 = Some s.
Proof.
  apply (author_numbers_name_own_affiliation sample_df sample_order sample_registry
           "DoeA" 2).
  - vm_compute. reflexivity.
  - vm_compute. left.
Defined.

(** ** The creator array *)

Lemma creator_of_row_lookup (r : InfoRow) (key : string) :
  creator_of_row r !! key
  = if decide (key = "orcid") then
      (if decide (ORCID r = Str "not-provided") then None else Some (ORCID r))
    else if decide (key = "affiliation") then
      (if decide (affiliation r = Str "not-provided") then None
       else Some (affiliation r))
    else if decide (key = "name") then
      Some (Str (fmt_cell (last_name r) +:+ ", " +:+ fmt_cell (first_name r)))
    else None.
Proof.
  unfold creator_of_row.
  destruct (decide (ORCID r = Str "not-provided")) as [Ho | Ho];
    destruct (decide (affiliation r = Str "not-provided")) as [Ha | Ha].
  - rewrite !bool_decide_eq_false_2 by (intros Hn; by apply Hn).
    rewrite lookup_insert. repeat case_decide; simplify_eq; done.
  - rewrite (bool_decide_eq_false_2 (ORCID r ≠ _)) by (intros Hn; by apply Hn).
    rewrite (bool_decide_eq_true_2 (affiliation r ≠ _)) by done.
    rewrite !lookup_insert. repeat case_decide; simplify_eq; done.
  - rewrite (bool_decide_eq_true_2 (ORCID r ≠ _)) by done.
    rewrite (bool_decide_eq_false_2 (affiliation r ≠ _)) by (intros Hn; by apply Hn).
    rewrite !lookup_insert. repeat case_decide; simplify_eq; done.
  - rewrite !bool_decide_eq_true_2 by done.
    rewrite !lookup_insert. repeat case_decide; simplify_eq; done.
Qed.

Lemma creator_dict_Ok_row (df : frame InfoRow) (author : string)
    (d : gmap string cell) :
  creator_dict df author = Ok d →
  ∃ r, df_row df author = Ok r ∧ d = creator_of_row r.
Proof.
  intros Hd. destruct (df_row df author) as [r|e] eqn:Hr.
  - rewrite (creator_dict_of_row _ _ _ Hr) in Hd. injection Hd as <-. eauto.
  - unfold creator_dict, df_at in Hd. by rewrite Hr in Hd.
Qed.

(** X11. The creator array has one dict per author of the order, in order.
    The dict of an author has the key 'name', holding "last name, first
    name" of the author's row; the key 'affiliation' exactly when the
    affiliation cell is not "not-provided", holding the cell; the key
    'orcid' exactly when the ORCID cell is not "not-provided", holding the
    cell; and no other key. *)
Theorem creator_array_entries (df : frame InfoRow) (order : list string)
    (creators : list (gmap string cell)) :
  _make_creator_array df order = Ok creators →
  length creators = length order ∧
  ∀ i a, order !! i = Some a →
    ∃ r d,
      df_row df a = Ok r ∧ creators !! i = Some d ∧
      d !! "name"
      = Some (Str (fmt_cell (last_name r) +:+ ", " +:+ fmt_cell (first_name r))) ∧
      d !! "affiliation"
      = (if decide (affiliation r = Str "not-provided") then None
         else Some (affiliation r)) ∧
      d !! "orcid"
      = (if decide (ORCID r = Str "not-provided") then None else Some (ORCID r)) ∧
      (∀ key, is_Some (d !! key) → key ∈ ["name"; "affiliation"; "orcid"]).
Proof.
  intros Hrun. split; [by eapply comprehension_length |].
  intros i a Hi.
  destruct (comprehension_Ok_lookup _ _ _ _ _ Hrun Hi) as (d & Hd & Hdict).
  apply creator_dict_Ok_row in Hdict as (r & Hr & ->).
  exists r, (creator_of_row r). split; [done |]. split; [done |].
  split; [by rewrite creator_of_row_lookup |].
  split; [by rewrite creator_of_row_lookup |].
  split; [by rewrite creator_of_row_lookup |].
  intros key [v Hv]. rewrite creator_of_row_lookup in Hv.
  repeat case_decide; simplify_eq; try done.
  - right. right. left.
  - right. left.
  - left.
Qed.

Lemma creator_array_entries_witness :
  ∃ creators,
    _make_creator_array sample_df sample_order = Ok creators ∧
    length creators = length sample_order ∧
    ∀ i a, sample_order !! i = Some a →
      ∃ r d,
        df_row sample_df a = Ok r ∧ creators !! i = Some d ∧
        d !! "name"
        = Some (Str (fmt_cell (last_name r) +:+ ", " +:+ fmt_cell (first_name r))) ∧
        d !! "affiliation"
        = (if decide (affiliation r = Str "not-provided") then None
           else Some (affiliation r)) ∧
        d !! "orcid"
        = (if decide (ORCID r = Str "not-provided") then None else Some (ORCID r)) ∧
        (∀ key, is_Some (d !! key) → key ∈ ["name"; "affiliation"; "orcid"]).
Proof.
  destruct (_make_creator_array sample_df sample_order) as [creators|e] eqn:Hrun.
  - exists creators. split; [done |].
    by apply (creator_array_entries sample_df sample_order creators).
  - exfalso. vm_compute in Hrun. discriminate Hrun.
Defined.

(** ** Runs and the remote service *)

Lemma init_Ok_inv (host : Host) (book : Workbook) (args : Args)
    (aie : AuthorInfoExtraction) :
  init host book args = Ok aie →
  isdir host (output_dir_path args) = true ∧
  (if submission args
   then ∃ sv, _setup_submission_vars host args = Ok sv ∧ aie_submission aie = Some sv
   else aie_submission aie = None) ∧
  _make_author_info_df (template_sheet book) = Ok (author_info_df aie) ∧
  _make_author_order (target_sheet book) = Ok (author_order aie) ∧
  _make_affiliations_dicts (author_info_df aie) (author_order aie)
  = Ok (aie_registry aie) ∧
  _make_creator_array (author_info_df aie) (author_order aie)
  = Ok (creator_array aie).
Proof.
  unfold init. destruct (isdir host (output_dir_path args)); [| done].
  cbn [mbind result_bind].
  intros (sub & Hsub & Hrest)%bind_Ok_inv.
  apply bind_Ok_inv in Hrest as (df & Hdf & Hrest).
  apply bind_Ok_inv in Hrest as (order & Horder & Hrest).
  apply bind_Ok_inv in Hrest as (reg & Hreg & Hrest).
  apply bind_Ok_inv in Hrest as (creators & Hcreators & [= <-]). simpl.
  split; [done |]. split; [| done].
  destruct (submission args).
  - apply bind_Ok_inv in Hsub as (sv & Hsv & [= <-]). eauto.
  - by injection Hsub as <-.
Qed.

(** X13. Without [--submission] nothing is ever sent: the log of the run
    is empty and its result is that of the construction and of
    [output_author_info] alone, the same for every remote service. *)
Theorem no_submission_no_request (host : Host) (book : Workbook) (server : Server)
    (args : Args) :
  submission args = false →
  run host book server args
  = (aie ← init host book args; outputs ← output_author_info host aie;
     Ok (outputs, None),
     []).
Proof.
  intros Hsub. unfold run, script, net_bind, net_lift.
  destruct (init host book args) as [aie|e] eqn:Hinit; [| done].
  cbn [mbind result_bind].
  destruct (init_Ok_inv _ _ _ _ Hinit) as (_ & Hnone & _). rewrite Hsub in Hnone.
  destruct (output_author_info host aie) as [outputs|e]; [| done].
  cbn [mbind result_bind]. by rewrite Hnone.
Qed.

Lemma no_submission_no_request_witness :
  run sample_host ghost_book unauthorized_server plain_args
  = (aie ← init sample_host ghost_book plain_args;
     outputs ← output_author_info sample_host aie; Ok (outputs, None),
     []).
Proof.
  apply (no_submission_no_request sample_host ghost_book unauthorized_server
           plain_args).
  reflexivity.
Defined.

Lemma upload_loop_Ok_opened (host : Host) (server : Server) (sv : SubmissionVars)
    (bucket_url : JSON) (files : list (string * string)) (log log' : list Request) :
  net_for_each (upload_body host server sv bucket_url) files log = (Ok tt, log') →
  Forall (λ pf, is_Some (read_lines host pf.1)) files ∧
  log' = log ++ upload_requests bucket_url (access_token sv) files.
Proof.
  revert log. induction files as [|[path filename] files IH]; intros log.
  - simpl. unfold net_ret. intros [= <-]. split; [constructor | by rewrite app_nil_r].
  - rewrite net_for_each_cons, upload_body_eq.
    destruct (read_lines host path) as [lines|] eqn:Hopen; [| done].
    intros [Hall ->]%IH. split.
    + constructor; [simpl; by rewrite Hopen | done].
    + simpl. by rewrite <- app_assoc.
Qed.

Lemma upload_pairs_paths (host : Host) (sv : SubmissionVars) :
  (upload_pairs host sv).*1 = data_file_path_list sv ∧
  (upload_pairs host sv).*2 = basename host <$> data_file_path_list sv.
Proof.
  unfold upload_pairs, _prepare_filenames_and_paths. split.
  - apply fst_zip. by rewrite length_fmap.
  - apply snd_zip. by rewrite length_fmap.
Qed.

(** X14. What a submission that returns has sent: the creation request;
    then, for every data file in the order given, one upload to the bucket
    of the creation response under the base name of the path; then one
    metadata request for the deposition id of the creation response; that
    is, two requests more than there are data files.  Every data file could
    be opened, and the link returned is 'links'/'html' of the response to
    the metadata request. *)
Theorem successful_submission_log (host : Host) (server : Server)
    (sv : SubmissionVars) (creators : list (gmap string cell))
    (link : JSON) (log : list Request) :
  do_zenodo_submission host server sv creators [] = (Ok link, log) →
  ∃ bucket_url deposition_id,
    deposition_ids (server [] (PostDeposition (access_token sv)))
    = Ok (bucket_url, deposition_id) ∧
    log = PostDeposition (access_token sv)
          :: upload_requests bucket_url (access_token sv) (upload_pairs host sv)
          ++ [PutMetaData deposition_id (_make_meta_data_object sv creators)
                          (access_token sv)] ∧
    (upload_pairs host sv).*1 = data_file_path_list sv ∧
    (upload_pairs host sv).*2 = basename host <$> data_file_path_list sv ∧
    length log = 2 + length (data_file_path_list sv) ∧
    Forall (λ path, is_Some (read_lines host path)) (data_file_path_list sv) ∧
    deposition_link
      (server (PostDeposition (access_token sv)
               :: upload_requests bucket_url (access_token sv) (upload_pairs host sv))
              (PutMetaData deposition_id (_make_meta_data_object sv creators)
                           (access_token sv)))
    = Ok link.
Proof.
  rewrite do_zenodo_submission_eq.
  destruct (deposition_ids _) as [[bucket_url deposition_id]|e] eqn:Hids; [| done].
  cbn [fst snd].
  destruct (net_for_each _ _ _) as [[[]|e] log'] eqn:Hloop; [| done].
  apply upload_loop_Ok_opened in Hloop as [Hopened ->].
  cbv zeta. intros [= Hlink <-].
  destruct (upload_pairs_paths host sv) as [Hfst Hsnd].
  exists bucket_url, deposition_id.
  split; [done |]. split; [done |]. split; [done |]. split; [done |].
  split; [| split; [| done]].
  - assert (length (data_file_path_list sv) = length (upload_pairs host sv)) as ->.
    { by rewrite <- Hfst, length_fmap. }
    cbn [length]. rewrite length_app. unfold upload_requests.
    rewrite length_fmap. simpl. lia.
  - rewrite <- Hfst. by apply Forall_fmap.
Qed.

Lemma successful_submission_log_witness :
  ∃ bucket_url deposition_id,
    deposition_ids (healthy_server [] (PostDeposition (access_token sample_submission)))
    = Ok (bucket_url, deposition_id) ∧
    [ PostDeposition "secret";
      PutFile (JStr "https://zenodo.org/api/files/b7") "a.txt" "a.txt" "secret";
      PutMetaData (JNum 7) (_make_meta_data_object sample_submission []) "secret" ]
    = PostDeposition (access_token sample_submission)
      :: upload_requests bucket_url (access_token sample_submission)
           (upload_pairs sample_host sample_submission)
      ++ [PutMetaData deposition_id (_make_meta_data_object sample_submission [])
                      (access_token sample_submission)] ∧
    (upload_pairs sample_host sample_submission).*1
    = data_file_path_list sample_submission ∧
    (upload_pairs sample_host sample_submission).*2
    = basename sample_host <$> data_file_path_list sample_submission ∧
    length [ PostDeposition "secret";
             PutFile (JStr "https://zenodo.org/api/files/b7") "a.txt" "a.txt" "secret";
             PutMetaData (JNum 7) (_make_meta_data_object sample_submission [])
                         "secret" ]
    = 2 + length (data_file_path_list sample_submission) ∧
    Forall (λ path, is_Some (read_lines sample_host path))
           (data_file_path_list sample_submission) ∧
    deposition_link
      (healthy_server
         (PostDeposition (access_token sample_submission)
          :: upload_requests bucket_url (access_token sample_submission)
               (upload_pairs sample_host sample_submission))
         (PutMetaData deposition_id (_make_meta_data_object sample_submission [])
                      (access_token sample_submission)))
    = Ok (JStr "https://zenodo.org/deposit/7").
Proof.
  apply (successful_submission_log sample_host healthy_server sample_submission []).
  reflexivity.
Defined.

(** X15. Steps are never skipped or reordered.  When the creation response
    does not yield the bucket and the id, the run ends with that error and
    the creation request is all that was sent.  When a metadata request
    was sent, it was the last request and every data file had been uploaded
    before it. *)
Theorem metadata_after_all_uploads (host : Host) (server : Server)
    (sv : SubmissionVars) (creators : list (gmap string cell)) :
  (∀ e, deposition_ids (server [] (PostDeposition (access_token sv))) = Raise e →
        do_zenodo_submission host server sv creators []
        = (Raise e, [PostDeposition (access_token sv)])) ∧
  (∀ deposition_id data token,
     PutMetaData deposition_id data token
       ∈ (do_zenodo_submission host server sv creators []).2 →
     ∃ bucket_url,
       (do_zenodo_submission host server sv creators []).2
       = PostDeposition (access_token sv)
         :: upload_requests bucket_url (access_token sv) (upload_pairs host sv)
         ++ [PutMetaData deposition_id data token]).
Proof.
  rewrite do_zenodo_submission_eq. split.
  - intros e He. by rewrite He.
  - intros deposition_id data token.
    destruct (deposition_ids _) as [[bucket_url id]|e] eqn:Hids; cbn [fst snd].
    + destruct (upload_loop_eq host server sv bucket_url (upload_pairs host sv)
                  [PostDeposition (access_token sv)]) as (n & Hn & _ & Hrun).
      rewrite Hrun.
      assert (∀ files, PutMetaData deposition_id data token
                       ∉ upload_requests bucket_url (access_token sv) files) as Hnot.
      { intros files ([p f] & [=] & _)%list_elem_of_fmap. }
      destruct (upload_pairs host sv !! n) as [pf|] eqn:Hpf; cbn [snd].
      * intros [[=] | Hin]%elem_of_cons. by apply Hnot in Hin.
      * apply lookup_ge_None in Hpf. rewrite take_ge by done.
        intros [[=] | [Hin | Hin]%elem_of_app]%elem_of_cons;
          [by apply Hnot in Hin |].
        apply list_elem_of_singleton in Hin as [= -> -> ->]. eauto.
    + simpl. intros [[=] | Hin]%elem_of_cons. by apply not_elem_of_nil in Hin.
Qed.

Lemma metadata_after_all_uploads_witness :
  do_zenodo_submission sample_host unauthorized_server sample_submission [] []
  = (Raise (KeyError "links"), [PostDeposition (access_token sample_submission)]).
Proof.
  apply (proj1 (metadata_after_all_uploads sample_host unauthorized_server
                  sample_submission [])).
  reflexivity.
Defined.

(** ** The output strings *)

Lemma superscript_pos_Ok (n : Z) : (0 < n)%Z → ∃ s, _superscript n = Ok s.
Proof.
  intros Hn. destruct n as [|p|p]; try lia.
  exists (superscript_digits (uint_digits (Pos.to_uint p))).
  unfold _superscript. cbv zeta.
  rewrite str_int_pos, list_ascii_of_string_of_list_ascii.
  apply superscript_loop, uint_digits_lt_10.
Qed.

Lemma superscript_of_Ok (n : nat) :
  1 ≤ n → _superscript (Z.of_nat n) = Ok (superscript_of n).
Proof.
  intros Hn. unfold superscript_of.
  destruct (superscript_pos_Ok (Z.of_nat n)) as [s ->]; [lia | done].
Qed.

Lemma order_rows_found (df : frame InfoRow) (order : list string) (reg : Registry) :
  _make_affiliations_dicts df order = Ok reg →
  ∀ a, a ∈ order → ∃ r, df_row df a = Ok r.
Proof.
  intros Hrun a Ha. apply df_row_index. by eapply make_affiliations_dicts_Ok_index.
Qed.

(** The numbers kept in a built registry start at 1. *)
Lemma author_numbers_positive (df : frame InfoRow) (order : list string)
    (reg : Registry) (a : string) (n : nat) :
  _make_affiliations_dicts df order = Ok reg →
  n ∈ defaultdict_get (author_to_affil_num_list_dict reg) a → 1 ≤ n.
Proof.
  intros Hrun Hn. pose proof (make_affiliations_dicts_wf _ _ _ Hrun) as Hwf.
  destruct (author_numbers_sound df order empty_registry reg empty_registry_wf)
    with (b := a) (n := n) as (s & _ & Hnum); try done.
  { intros b m Hm. unfold defaultdict_get in Hm. simpl in Hm.
    rewrite lookup_empty in Hm. by apply not_elem_of_nil in Hm. }
  apply (wf_str_to_num _ Hwf) in Hnum as (i & -> & _). lia.
Qed.

Lemma author_string_without_built (df : frame InfoRow) (order : list string)
    (reg : Registry) :
  _make_affiliations_dicts df order = Ok reg →
  _create_author_without_affiliation_string df order
  = Ok (join "; " (author_entry df <$> order)).
Proof.
  intros Hrun. unfold _create_author_without_affiliation_string.
  rewrite (comprehension_fmap _ (author_entry df)); [done |].
  intros a [r Hr]%(order_rows_found _ _ _ Hrun).
  unfold df_at, author_entry. by rewrite Hr.
Qed.

Lemma author_string_with_built (df : frame InfoRow) (order : list string)
    (reg : Registry) :
  _make_affiliations_dicts df order = Ok reg →
  _create_author_with_affiliation_string df order reg
  = Ok (join "; " ((λ a, author_entry df a +:+ author_marks reg a) <$> order)).
Proof.
  intros Hrun. unfold _create_author_with_affiliation_string.
  rewrite (comprehension_fmap _ (λ a, author_entry df a +:+ author_marks reg a));
    [done |].
  intros a [r Hr]%(order_rows_found _ _ _ Hrun).
  rewrite (comprehension_fmap _ superscript_of).
  - cbn [mbind result_bind]. unfold df_at, author_entry, author_marks.
    rewrite Hr. simpl. by rewrite !string_app_assoc.
  - intros n Hn. apply superscript_of_Ok. by eapply author_numbers_positive.
Qed.

Lemma affiliation_strings_built (df : frame InfoRow) (order : list string)
    (reg : Registry) :
  _make_affiliations_dicts df order = Ok reg →
  _create_affiliation_strings reg
  = Ok (join (";" +:+ newline) (imap affiliation_entry (affiliation_list reg)),
        join "; " (imap affiliation_entry (affiliation_list reg))).
Proof.
  intros Hwf%make_affiliations_dicts_wf. unfold _create_affiliation_strings.
  by rewrite (affiliation_entries_imap _ Hwf).
Qed.

(** X12. Once the registry is built for an author order over a master
    table, the three functions that make the output strings raise nothing.
    The author string without numbers joins "last name, initials" of the
    authors with "; "; the one with numbers has, right after each entry,
    the superscripts of the author's affiliation numbers; the two
    affiliation strings join the same entries "<number>-<string>", one per
    string of the affiliation list in list order, with "; " and with a
    semicolon and a line break. *)
Theorem output_strings_after_registry (df : frame InfoRow) (order : list string)
    (reg : Registry) :
  _make_affiliations_dicts df order = Ok reg →
  _create_author_without_affiliation_string df order
  = Ok (join "; " (author_entry df <$> order)) ∧
  _create_author_with_affiliation_string df order reg
  = Ok (join "; " ((λ a, author_entry df a +:+ author_marks reg a) <$> order)) ∧
  _create_affiliation_strings reg
  = Ok (join (";" +:+ newline) (imap affiliation_entry (affiliation_list reg)),
        join "; " (imap affiliation_entry (affiliation_list reg))).
Proof.
  intros Hrun. split; [| split].
  - by eapply author_string_without_built.
  - by apply author_string_with_built.
  - by eapply affiliation_strings_built.
Qed.

Lemma output_strings_after_registry_witness :
  _create_author_without_affiliation_string sample_df sample_order
  = Ok (join "; " (author_entry sample_df <$> sample_order)) ∧
  _create_author_with_affiliation_string sample_df sample_order sample_registry
  = Ok (join "; " ((λ a, author_entry sample_df a +:+ author_marks sample_registry a)
                     <$> sample_order)) ∧
  _create_affiliation_strings sample_registry
  = Ok (join (";" +:+ newline)
             (imap affiliation_entry (affiliation_list sample_registry)),
        join "; " (imap affiliation_entry (affiliation_list sample_registry))).
Proof.
  apply (output_strings_after_registry sample_df sample_order sample_registry).
  vm_compute. reflexivity.
Defined.







(** On a host that cannot encode the superscript digits the second write
    fails and the run ends there, after the construction. *)
Example unencodable_superscripts :
  run ascii_host sample_book idle_server plain_args
  = (Raise UnicodeEncodeError, []).
Proof. vm_compute. reflexivity. Qed.

(** The whole run on the sample workbook, without a submission. *)
Example sample_run :
  ∃ outputs,
    run sample_host sample_book idle_server plain_args = (Ok (outputs, None), []) ∧
    author_string_w_o_affiliation_numbers outputs
    = "Smith, J.; Doe, A.; Lee, K.; Clayssen, C." ∧
    author_string_w_affiliation_numbers outputs
    = "Smith, J.¹; Doe, A.²; Lee, K.¹; Clayssen, C.³" ∧
    affiliations_one_line outputs = "1-Lab1; 2-Lab2; 3-not-provided".
Proof. eexists. split; [vm_compute; reflexivity |]. vm_compute. done. Qed.
